(** * Workspace file-reference resolution and context assembly

    A shallow embedding of the file-reference engine of the AI Code
    Assistant extension: [ChatPanelProvider] (chatPanelProvider.ts) and
    [FileManager] (fileManager.ts).  JavaScript strings are modelled as
    [string] (sequences of 8-bit characters, with the case mapping of the
    ASCII letters), paths follow the POSIX flavour of Node's [path], the
    [vscode] and [fs] calls are the fields of a [World] record, and a
    rejected promise or a thrown [Error] is [Throw msg]. *)

From Stdlib Require Import String Ascii List ZArith Lia Bool Arith.
From Stdlib Require Import Permutation Sorted DecimalString.
Import ListNotations.

Local Open Scope list_scope.
Local Open Scope string_scope.

(** ** Outcomes of fallible calls *)

Inductive result (A : Type) : Type :=
| Ok (a : A)
| Throw (msg : string).
Arguments Ok {A} a.
Arguments Throw {A} msg.

(** ** JavaScript string primitives *)

Module JS.

Definition chars (s : string) : list ascii := list_ascii_of_string s.
Definition str (l : list ascii) : string := string_of_list_ascii l.

Definition is_upper (c : ascii) : bool :=
  let n := nat_of_ascii c in Nat.leb 65 n && Nat.leb n 90.
Definition is_lower (c : ascii) : bool :=
  let n := nat_of_ascii c in Nat.leb 97 n && Nat.leb n 122.
Definition is_digit (c : ascii) : bool :=
  let n := nat_of_ascii c in Nat.leb 48 n && Nat.leb n 57.

Definition lower_char (c : ascii) : ascii :=
  if is_upper c then ascii_of_nat (nat_of_ascii c + 32) else c.
Definition upper_char (c : ascii) : ascii :=
  if is_lower c then ascii_of_nat (nat_of_ascii c - 32) else c.

Fixpoint map_chars (f : ascii -> ascii) (s : string) : string :=
  match s with
  | EmptyString => EmptyString
  | String c r => String (f c) (map_chars f r)
  end.

(** [s.toLowerCase()] and [s.toUpperCase()]. *)
Definition toLowerCase : string -> string := map_chars lower_char.
Definition toUpperCase : string -> string := map_chars upper_char.

(** [s.startsWith(p)]. *)
Definition startsWith (s p : string) : bool := String.prefix p s.

(** [s.includes(sub)]. *)
Fixpoint includes (s sub : string) : bool :=
  if String.prefix sub s then true
  else match s with
       | EmptyString => false
       | String _ r => includes r sub
       end.

(** [s.substring(1)]. *)
Definition substring1 (s : string) : string :=
  match s with
  | EmptyString => EmptyString
  | String _ r => r
  end.

(** [xs.includes(x)] on an array of strings. *)
Definition array_includes (xs : list string) (x : string) : bool :=
  existsb (String.eqb x) xs.

(** A [Set<string>] keeps its members in insertion order; [add] of a
    member already present changes nothing. *)
Definition Set_add (s : list string) (x : string) : list string :=
  if array_includes s x then s else (s ++ [x])%list.

(** [Array.from(new Set(xs))], also written [[...new Set(xs)]]. *)
Definition Set_of (xs : list string) : list string :=
  fold_left Set_add xs [].

(** [xs.find(p)]. *)
Definition Array_find {A : Type} (p : A -> bool) (xs : list A) : option A :=
  List.find p xs.

(** [xs.slice(0, n)]. *)
Definition slice0 {A : Type} (n : nat) (xs : list A) : list A := firstn n xs.

Section Sort.
Context {A : Type} (compareFn : A -> A -> Z).

(** [xs.sort(compareFn)].  The language requires the sort to be stable;
    for a comparator that is a total preorder there is one stable
    sorted arrangement, and this insertion sort computes it: the new
    element goes before the first element it does not compare greater
    than. *)
Fixpoint sort_insert (x : A) (l : list A) : list A :=
  match l with
  | [] => [x]
  | y :: r => if (compareFn x y <=? 0)%Z then x :: y :: r
              else y :: sort_insert x r
  end.

Definition Array_sort (l : list A) : list A :=
  fold_right sort_insert [] l.

(** [a] does not compare greater than [b]. *)
Definition cmp_le (a b : A) : Prop := (compareFn a b <= 0)%Z.
End Sort.

End JS.

(** ** Node's [path] module (POSIX flavour) *)

Module Path.
Import JS.

Definition slash : ascii := "/"%char.
Definition dot : ascii := "."%char.
Definition is_slash (c : ascii) : bool := Ascii.eqb c slash.
Definition is_dot (c : ascii) : bool := Ascii.eqb c dot.

Fixpoint takeWhile {A} (p : A -> bool) (l : list A) : list A :=
  match l with
  | [] => []
  | x :: r => if p x then x :: takeWhile p r else []
  end.

Fixpoint dropWhile {A} (p : A -> bool) (l : list A) : list A :=
  match l with
  | [] => []
  | x :: r => if p x then dropWhile p r else l
  end.

(** Neither a separator nor a dot. *)
Definition plain (c : ascii) : bool := negb (is_slash c) && negb (is_dot c).

(** [path.isAbsolute(p)]. *)
Definition isAbsolute (p : string) : bool :=
  match p with
  | String c _ => is_slash c
  | EmptyString => false
  end.

(** The last portion of the path, read from the right: trailing
    separators are skipped, then characters are taken up to the next
    separator.  The result is in reverse order. *)
Definition rev_last_portion (p : string) : list ascii :=
  takeWhile (fun c => negb (is_slash c)) (dropWhile is_slash (rev (chars p))).

(** [path.basename(p)]. *)
Definition basename (p : string) : string := str (rev (rev_last_portion p)).

(** [path.extname(p)]: from the last dot of the last portion to its end;
    empty when that portion has no dot, when its only dot is its first
    character, or when the portion is [".."]. *)
Definition extname (p : string) : string :=
  let rb := rev_last_portion p in
  let rext := takeWhile (fun c => negb (is_dot c)) rb in
  match dropWhile (fun c => negb (is_dot c)) rb with
  | [] => ""
  | _ :: before =>
      match before with
      | [] => ""
      | _ => if String.eqb (str (rev rb)) ".." then ""
             else str (dot :: rev rext)
      end
  end.

(** [path.dirname(p)]. *)
Definition dirname (p : string) : string :=
  match chars p with
  | [] => "."
  | c0 :: tl =>
      (* scan from the right, never looking at index 0 *)
      let r := dropWhile (fun c => negb (is_slash c))
                 (dropWhile is_slash (rev tl)) in
      match r with
      | [] => if is_slash c0 then "/" else "."
      | _ :: before =>
          match before with
          | [] => if is_slash c0 then "//" else str [c0]
          | _ => str (c0 :: rev before)
          end
      end
  end.

(** Splitting at separators. *)
Fixpoint split_aux (cur : list ascii) (l : list ascii) : list (list ascii) :=
  match l with
  | [] => [rev cur]
  | c :: r => if is_slash c then rev cur :: split_aux [] r
              else split_aux (c :: cur) r
  end.
Definition split_slash (p : string) : list (list ascii) := split_aux [] (chars p).

Definition is_dotdot (seg : list ascii) : bool :=
  match seg with
  | [a; b] => is_dot a && is_dot b
  | _ => false
  end.
Definition is_single_dot (seg : list ascii) : bool :=
  match seg with
  | [a] => is_dot a
  | _ => false
  end.

(** [normalizeString]: the stack of kept segments, last segment first. *)
Fixpoint normalize_segments (allowAboveRoot : bool)
         (stack : list (list ascii)) (segs : list (list ascii))
  : list (list ascii) :=
  match segs with
  | [] => stack
  | seg :: r =>
      match seg with
      | [] => normalize_segments allowAboveRoot stack r
      | _ =>
          if is_single_dot seg then normalize_segments allowAboveRoot stack r
          else if is_dotdot seg then
            match stack with
            | top :: below =>
                if is_dotdot top
                then normalize_segments allowAboveRoot
                       (if allowAboveRoot then seg :: stack else stack) r
                else normalize_segments allowAboveRoot below r
            | [] =>
                normalize_segments allowAboveRoot
                  (if allowAboveRoot then [seg] else []) r
            end
          else normalize_segments allowAboveRoot (seg :: stack) r
      end
  end.

Fixpoint join_segments (segs : list (list ascii)) : list ascii :=
  match segs with
  | [] => []
  | [s] => s
  | s :: r => (s ++ slash :: join_segments r)%list
  end.

Definition ends_with_slash (p : string) : bool :=
  match rev (chars p) with
  | c :: _ => is_slash c
  | [] => false
  end.

(** [path.normalize(p)]. *)
Definition normalize (p : string) : string :=
  match p with
  | EmptyString => "."
  | _ =>
      let abs := isAbsolute p in
      let trailing := ends_with_slash p in
      let body := join_segments
                    (rev (normalize_segments (negb abs) [] (split_slash p))) in
      match body with
      | [] => if abs then "/" else if trailing then "./" else "."
      | _ =>
          let body' := if trailing then (body ++ [slash])%list else body in
          str (if abs then slash :: body' else body')
      end
  end.

(** [path.join(a, b)]. *)
Definition join (a b : string) : string :=
  match a, b with
  | EmptyString, EmptyString => "."
  | EmptyString, _ => normalize b
  | _, EmptyString => normalize a
  | _, _ => normalize (a ++ "/" ++ b)
  end.

End Path.

(** ** The editor and the file system

    Everything the two classes ask of [vscode.workspace], [fs] and the
    generation endpoint.  A [Uri] is identified with its [fsPath]. *)

Record Stats := {
  size : Z;                      (* [stats.size] *)
  mtime_toLocaleDateString : string  (* [stats.mtime.toLocaleDateString()] *)
}.

Record World := {
  (* [vscode.workspace.workspaceFolders]: [None] is [undefined] *)
  workspaceFolders : option (list string);
  (* [vscode.workspace.findFiles(include, exclude, maxResults)] *)
  findFiles : string -> option string -> option nat -> result (list string);
  (* [vscode.workspace.asRelativePath] *)
  asRelativePath : string -> string;
  (* [fs.promises.access(p)] resolves *)
  fs_access : string -> bool;
  (* [openTextDocument(p)] followed by [getText()] *)
  openTextDocument : string -> result string;
  (* [fs.statSync(p)] *)
  fs_statSync : string -> result Stats;
  (* [_callAI(prompt)] *)
  callAI : string -> result string
}.

Definition nl : string := String (ascii_of_nat 10) EmptyString.

(** [Promise.all] over already modelled outcomes: the list of values when
    every promise fulfils, a rejection as soon as one rejects.  Which
    rejection wins when several promises reject depends on completion
    order; the model reports the first one in list order. *)
Fixpoint Promise_all {A : Type} (ps : list (result A)) : result (list A) :=
  match ps with
  | [] => Ok []
  | Throw m :: _ => Throw m
  | Ok a :: r =>
      match Promise_all r with
      | Ok l => Ok (a :: l)
      | Throw m => Throw m
      end
  end.

(** ** chatPanelProvider.ts *)

Module ChatPanel.
Import JS Path.

(** *** [_extractFileReferences] *)

(** The character class [[a-zA-Z0-9./_-]]. *)
Definition is_ref_char (c : ascii) : bool :=
  is_lower c || is_upper c || is_digit c ||
  Ascii.eqb c "."%char || Ascii.eqb c "/"%char ||
  Ascii.eqb c "_"%char || Ascii.eqb c "-"%char.

Definition is_at (c : ascii) : bool := Ascii.eqb c "@"%char.

(** An [@] that has been read, with the class characters read after it
    so far (in reverse). *)
Definition flush (cur : option (list ascii)) : list string :=
  match cur with
  | None => []
  | Some [] => []          (* [+] needs one character: no match here *)
  | Some r => [str (rev r)]
  end.

(** The successive values of [match[1]] in the loop
    [while ((match = fileRefRegex.exec(text)) !== null)].  The class
    [[a-zA-Z0-9./_-]+] is greedy and contains the dot, so the optional
    extension group that follows it always matches empty: capture 1 is
    the longest run of class characters after an [@]; the next search
    resumes after that run. *)
Fixpoint exec_loop (cur : option (list ascii)) (text : list ascii)
  : list string :=
  match text with
  | [] => flush cur
  | c :: r =>
      match cur with
      | Some run =>
          if is_ref_char c then exec_loop (Some (c :: run)) r
          else (flush cur ++ exec_loop (if is_at c then Some [] else None) r)%list
      | None => exec_loop (if is_at c then Some [] else None) r
      end
  end.

Definition exec_all (text : string) : list string :=
  exec_loop None (chars text).

(** The class [[.,;!?]]. *)
Definition is_trailing_punct (c : ascii) : bool :=
  Ascii.eqb c "."%char || Ascii.eqb c ","%char || Ascii.eqb c ";"%char ||
  Ascii.eqb c "!"%char || Ascii.eqb c "?"%char.

(** [m.replace(/[.,;!?]*$/, '')]: the longest run of the class that
    reaches the end of the string is removed. *)
Definition cleanPath (m : string) : string :=
  str (rev (dropWhile is_trailing_punct (rev (chars m)))).

Definition _extractFileReferences (text : string) : list string :=
  fold_left (fun matches m => Set_add matches (cleanPath m))
            (exec_all text) [].

(** The last character, if any, is not of the class [[.,;!?]]. *)
Definition endsClean (s : string) : Prop :=
  match rev (chars s) with
  | [] => True
  | c :: _ => is_trailing_punct c = false
  end.

(** *** [_findFilesInWorkspace] *)

Definition node_modules_glob : string := "**/node_modules/**".

Definition _findFilesInWorkspace (w : World) (query : string)
  : result (list string) :=
  findFiles w ("**/" ++ query) (Some node_modules_glob) (Some 5%nat).

(** *** [_getFileLanguage] *)

Definition langMap : list (string * string) :=
  [ (".js", "JavaScript"); (".jsx", "JSX"); (".ts", "TypeScript");
    (".tsx", "TSX"); (".css", "CSS"); (".scss", "SCSS");
    (".html", "HTML"); (".json", "JSON") ].

(** [obj[key]] on an object literal with string values. *)
Fixpoint lookup (key : string) (obj : list (string * string)) : option string :=
  match obj with
  | [] => None
  | (k, v) :: r => if String.eqb k key then Some v else lookup key r
  end.

(** [a || b] for a property read [a] and a string [b]: [undefined] and
    the empty string are falsy. *)
Definition or_else (a : option string) (b : string) : string :=
  match a with
  | Some EmptyString => b
  | Some v => v
  | None => b
  end.

Definition _getFileLanguage (filePath : string) : string :=
  let ext := toLowerCase (extname filePath) in
  or_else (lookup ext langMap) (toUpperCase (substring1 ext)).

(** *** [_isImageFile] and [_readFileContent] *)

Definition imageExtensions : list string :=
  [".png"; ".jpg"; ".jpeg"; ".gif"; ".bmp"; ".svg"].

Definition _isImageFile (filePath : string) : bool :=
  array_includes imageExtensions (toLowerCase (extname filePath)).

(** [path.isAbsolute(filePath) ? filePath
     : path.join(workspaceFolders[0].uri.fsPath, filePath)] *)
Definition fullPath_of (folders : list string) (filePath : string)
  : result string :=
  if isAbsolute filePath then Ok filePath
  else match folders with
       | f0 :: _ => Ok (join f0 filePath)
       | [] => Throw "Cannot read properties of undefined (reading 'uri')"
       end.

Definition _readFileContent (w : World) (filePath : string) : result string :=
  match workspaceFolders w with
  | None => Throw "No workspace folder"
  | Some folders =>
      match fullPath_of folders filePath with
      | Throw m => Throw m
      | Ok fullPath =>
          if _isImageFile filePath
          then Ok ("[Image file: " ++ basename filePath ++ "]")
          else openTextDocument w fullPath
      end
  end.

(** *** [_handleChatMessage] *)

Inductive Posted :=
| aiResponse (text : string) (referencedFiles : list string)
| error (text : string).

Definition nonempty (s : string) : bool := negb (String.eqb s "").

(** [fileReferences]: the extracted references without the empty ones. *)
Definition fileReferences (text : string) : list string :=
  filter nonempty (_extractFileReferences text).

(** One reference: [files[0]?.fsPath], [undefined] when the search
    rejects. *)
Definition resolveReference (w : World) (ref : string) : option string :=
  match _findFilesInWorkspace w ref with
  | Ok (f :: _) => Some f
  | Ok [] => None
  | Throw _ => None
  end.

(** [.filter(filePath => !!filePath)] *)
Fixpoint truthy (l : list (option string)) : list string :=
  match l with
  | [] => []
  | Some s :: r => if nonempty s then s :: truthy r else truthy r
  | None :: r => truthy r
  end.

Definition resolvedFiles (w : World) (text : string) : list string :=
  truthy (map (resolveReference w) (fileReferences text)).

Definition allFiles (w : World) (text : string) (attachedFiles : list string)
  : list string :=
  Set_of (attachedFiles ++ resolvedFiles w text)%list.

Record FileContent := { fc_path : string; fc_content : string }.

Definition readOne (w : World) (filePath : string) : result FileContent :=
  match _readFileContent w filePath with
  | Ok c => Ok {| fc_path := asRelativePath w filePath; fc_content := c |}
  | Throw m => Throw m
  end.

Definition fence : string := "```".

Definition fileBlock (file : FileContent) : string :=
  nl ++ "// File: " ++ fc_path file ++ nl ++
  "// Language: " ++ _getFileLanguage (fc_path file) ++ nl ++
  fence ++ nl ++ fc_content file ++ nl ++ fence ++ nl.

Definition buildPrompt (text : string) (fileContents : list FileContent)
  : string :=
  match fileContents with
  | [] => text
  | _ => fold_left (fun prompt file => prompt ++ fileBlock file) fileContents
           (text ++ nl ++ nl ++ "=== Referenced Files ===" ++ nl)
  end.

(** The prompt handed to [_callAI], or the failure that reaches the
    handler's [catch]. *)
Definition enhancedPrompt (w : World) (text : string)
           (attachedFiles : list string) : result string :=
  match Promise_all (map (readOne w) (allFiles w text attachedFiles)) with
  | Ok fileContents => Ok (buildPrompt text fileContents)
  | Throw m => Throw m
  end.

Definition _handleChatMessage (w : World) (text : string)
           (attachedFiles : list string) : Posted :=
  match enhancedPrompt w text attachedFiles with
  | Throw m => error ("Error: " ++ m)
  | Ok prompt =>
      match callAI w prompt with
      | Ok response => aiResponse response (allFiles w text attachedFiles)
      | Throw m => error ("Error: " ++ m)
      end
  end.

(** *** [_getWorkspaceFiles] *)

Record FileEntry := {
  path : string;
  fullPath : string;
  name : string;
  directory : string
}.

Definition backslash : ascii := ascii_of_nat 92.

(** [query.replace(/\\/g, '/').toLowerCase()] *)
Definition normalizeQuery (query : string) : string :=
  toLowerCase
    (map_chars (fun c => if Ascii.eqb c backslash then slash else c) query).

(** [parts[parts.length - 1]] for [parts = q.split('/')] *)
Definition lastPart (q : string) : string :=
  str (rev (takeWhile (fun c => negb (is_slash c)) (rev (chars q)))).

Definition searchPatterns (normalizedQuery : string) : list string :=
  let filename := lastPart normalizedQuery in
  [ "**/" ++ normalizedQuery;
    "**/" ++ filename;
    "**/*" ++ filename ++ "*";
    "**/" ++ filename ++ ".*";
    "**/*" ++ filename ++ ".*" ].

Fixpoint searchAll (w : World) (patterns : list string) : result (list string) :=
  match patterns with
  | [] => Ok []
  | p :: r =>
      match findFiles w p (Some node_modules_glob) (Some 20%nat) with
      | Throw m => Throw m
      | Ok found =>
          match searchAll w r with
          | Throw m => Throw m
          | Ok more => Ok (found ++ more)%list
          end
      end
  end.

Definition toEntry (w : World) (file : string) : FileEntry :=
  let relativePath := asRelativePath w file in
  {| path := relativePath;
     fullPath := file;
     name := basename file;
     directory := dirname relativePath |}.

(** The comparator handed to [fileList.sort]. *)
Definition compareFn (normalizedQuery : string) (a b : FileEntry) : Z :=
  let aExact := String.eqb (toLowerCase (path a)) normalizedQuery in
  let bExact := String.eqb (toLowerCase (path b)) normalizedQuery in
  if aExact && negb bExact then (-1)%Z
  else if negb aExact && bExact then 1%Z
  else
    let aDirMatch := includes (toLowerCase (path a)) normalizedQuery in
    let bDirMatch := includes (toLowerCase (path b)) normalizedQuery in
    if aDirMatch && negb bDirMatch then (-1)%Z
    else if negb aDirMatch && bDirMatch then 1%Z
    else (Z.of_nat (String.length (path a))
          - Z.of_nat (String.length (path b)))%Z.

(** The ranking step: [fileList.sort(...)] for the given query. *)
Definition rankFiles (query : string) (fileList : list FileEntry)
  : list FileEntry :=
  Array_sort (compareFn (normalizeQuery query)) fileList.

(** The [files] of the posted [workspaceFiles] message; [None] when
    nothing is posted. *)
Definition _getWorkspaceFiles (w : World) (query : string)
  : option (list FileEntry) :=
  match workspaceFolders w with
  | None => None
  | Some _ =>
      match searchAll w (searchPatterns (normalizeQuery query)) with
      | Throw _ => Some []
      | Ok files =>
          let uniqueFiles := Set_of files in
          let fileList := map (toEntry w) uniqueFiles in
          Some (slice0 20 (rankFiles query fileList))
      end
  end.

(** *** [_calculateRelevance] (no caller) *)

Definition commonExtensions : list string :=
  [".js"; ".jsx"; ".ts"; ".tsx"; ".vue"; ".py"; ".java"; ".c"; ".cpp"].

Definition bonus (b : bool) (points : Z) : Z := if b then points else 0%Z.

Definition _calculateRelevance (file : FileEntry) (query : string) : Z :=
  let lowerQuery := toLowerCase query in
  let lowerPath := toLowerCase (path file) in
  let lowerName := toLowerCase (name file) in
  let lowerDir := toLowerCase (directory file) in
  (bonus (String.eqb lowerPath lowerQuery) 1000
   + bonus (includes lowerPath lowerQuery) 500
   + bonus (includes lowerDir lowerQuery) 300
   + bonus (String.eqb lowerName (basename lowerQuery)) 200
   + bonus (startsWith lowerName (basename lowerQuery)) 100
   + bonus (includes lowerName (basename lowerQuery)) 50
   + bonus (array_includes commonExtensions (toLowerCase (extname (name file)))) 20)%Z.

(** *** [_getFileContent] *)

Inductive ContentPosted :=
| fileContent (filePath content : string)
| contentError (text : string).

Definition _getFileContent (w : World) (filePath : string) : ContentPosted :=
  match _readFileContent w filePath with
  | Ok content => fileContent filePath content
  | Throw _ => contentError ("Could not read file: " ++ filePath)
  end.

(** *** [_callAI]

    The settings [aiCodeAssistant.apiKey] and [aiCodeAssistant.apiUrl], and
    [axios.post] as a function of the URL, the body and the headers that
    yields the [message.content] of each element of
    [response.data.choices]. *)

Record Configuration := {
  cfg_apiKey : option string;
  cfg_apiUrl : option string
}.

Record ChatMessage := { msg_role : string; msg_content : string }.

Record PostBody := {
  body_model : string;
  body_messages : list ChatMessage;
  body_max_tokens : Z;
  body_temperature : string       (* the literal of the source *)
}.

Record PostHeaders := {
  hdr_Authorization : string;
  hdr_Content_Type : string
}.

Definition Axios : Type := string -> PostBody -> PostHeaders -> result (list string).

Definition defaultApiUrl : string := "https://api.deepseek.com/v1/chat/completions".

Definition systemContent : string :=
  "You are an AI code assistant. Help users with code generation, debugging, and explanations. Provide clear, well-commented code and detailed explanations.".

Definition missingKey : string := "Please set your DeepSeek API key in settings".

Definition chatBody (prompt : string) : PostBody :=
  {| body_model := "deepseek-coder";
     body_messages := [ {| msg_role := "system"; msg_content := systemContent |};
                        {| msg_role := "user"; msg_content := prompt |} ];
     body_max_tokens := 2048;
     body_temperature := "0.1" |}.

Definition _callAI (cfg : Configuration) (post : Axios) (prompt : string)
  : result string :=
  match cfg_apiKey cfg with
  | None => Throw missingKey
  | Some apiKey =>
      if nonempty apiKey then
        match post (or_else (cfg_apiUrl cfg) defaultApiUrl)
                   (chatBody prompt)
                   {| hdr_Authorization := "Bearer " ++ apiKey;
                      hdr_Content_Type := "application/json" |} with
        | Throw m => Throw m
        | Ok (first :: _) => Ok first
        | Ok [] => Throw "Cannot read properties of undefined (reading 'message')"
        end
      else Throw missingKey
  end.

(** *** The script of the webview: [ChatApp]

    The state kept by [useState] and the handlers that change it. *)

Record UiMessage := {
  um_type : string;                          (* [user] or [ai] *)
  um_content : string;
  um_attachedFiles : option (list string)    (* absent on [ai] messages *)
}.

Record ChatState := {
  messages : list UiMessage;
  input : string;
  attachedFiles : list string;
  isLoading : bool;
  suggestions : list FileEntry;
  showSuggestions : bool
}.

Definition initialState : ChatState :=
  {| messages := []; input := ""; attachedFiles := []; isLoading := false;
     suggestions := []; showSuggestions := false |}.

(** The messages the script posts to the extension. *)
Inductive Request :=
| sendMessageRequest (text : string) (attached : list string)
| getWorkspaceFilesRequest (query : string).

(** The messages the extension posts to the script. *)
Inductive Incoming :=
| aiResponseMessage (text : string)
| errorMessage (text : string)
| workspaceFilesMessage (files : list FileEntry).

(** [s.substring(0, n)] and [s.substring(n)] for [n >= 0]. *)
Definition substringTo (n : nat) (s : string) : string := str (firstn n (chars s)).
Definition substringFrom (n : nat) (s : string) : string := str (skipn n (chars s)).

(** [s.lastIndexOf(c)], [-1] when [c] does not occur. *)
Definition lastIndexOf (s : string) (c : ascii) : Z :=
  (Z.of_nat (length (dropWhile (fun x => negb (Ascii.eqb x c)) (rev (chars s)))) - 1)%Z.

Definition handleMessage (st : ChatState) (message : Incoming) : ChatState :=
  let answered text :=
    {| messages := (messages st
                    ++ [ {| um_type := "ai"; um_content := text;
                            um_attachedFiles := None |} ])%list;
       input := input st;
       attachedFiles := attachedFiles st;
       isLoading := false;
       suggestions := suggestions st;
       showSuggestions := showSuggestions st |} in
  match message with
  | aiResponseMessage text => answered text
  | errorMessage text => answered text
  | workspaceFilesMessage files =>
      {| messages := messages st;
         input := input st;
         attachedFiles := attachedFiles st;
         isLoading := isLoading st;
         suggestions := files;
         showSuggestions := negb (Nat.eqb (length files) 0) |}
  end.

(** [handleInputChange] for the new value of the text area and the
    position of its cursor. *)
Definition handleInputChange (st : ChatState) (value : string)
           (cursorPosition : nat) : option Request * ChatState :=
  let textBeforeCursor := substringTo cursorPosition value in
  let lastAtIndex := lastIndexOf textBeforeCursor "@"%char in
  let typed show :=
    {| messages := messages st;
       input := value;
       attachedFiles := attachedFiles st;
       isLoading := isLoading st;
       suggestions := suggestions st;
       showSuggestions := show |} in
  if (lastAtIndex =? -1)%Z then (None, typed false)
  else (Some (getWorkspaceFilesRequest
                (substringFrom (Z.to_nat (lastAtIndex + 1)) textBeforeCursor)),
        typed (showSuggestions st)).

Definition handleSuggestionClick (st : ChatState) (cursorPosition : nat)
           (file : FileEntry) : ChatState :=
  let textBeforeCursor := substringTo cursorPosition (input st) in
  let textAfterCursor := substringFrom cursorPosition (input st) in
  let lastAtIndex := lastIndexOf textBeforeCursor "@"%char in
  let newText := substringTo (Z.to_nat (lastAtIndex + 1)) textBeforeCursor
                 ++ path file ++ " " ++ textAfterCursor in
  {| messages := messages st;
     input := newText;
     attachedFiles := if array_includes (attachedFiles st) (path file)
                      then attachedFiles st
                      else (attachedFiles st ++ [path file])%list;
     isLoading := isLoading st;
     suggestions := suggestions st;
     showSuggestions := false |}.

Definition removeAttachedFile (st : ChatState) (filePath : string) : ChatState :=
  {| messages := messages st;
     input := input st;
     attachedFiles := filter (fun f => negb (String.eqb f filePath))
                             (attachedFiles st);
     isLoading := isLoading st;
     suggestions := suggestions st;
     showSuggestions := showSuggestions st |}.

(** White space in the sense of [String.prototype.trim], among the
    8-bit characters. *)
Definition is_space (c : ascii) : bool :=
  let n := nat_of_ascii c in
  (Nat.leb 9 n && Nat.leb n 13) || Nat.eqb n 32 || Nat.eqb n 160.

(** [!s.trim()] *)
Definition blank (s : string) : bool := forallb is_space (chars s).

Definition sendMessage (st : ChatState) : option Request * ChatState :=
  if blank (input st) && Nat.eqb (length (attachedFiles st)) 0 then (None, st)
  else (Some (sendMessageRequest (input st) (attachedFiles st)),
        {| messages := (messages st
                        ++ [ {| um_type := "user"; um_content := input st;
                                um_attachedFiles := Some (attachedFiles st) |} ])%list;
           input := "";
           attachedFiles := [];
           isLoading := true;
           suggestions := suggestions st;
           showSuggestions := false |}).

(** What happens in the view, one event at a time. *)
Inductive Event :=
| Received (message : Incoming)
| Typed (value : string) (cursorPosition : nat)
| Clicked (cursorPosition : nat) (file : FileEntry)
| Removed (filePath : string)
| Sent.

Definition step (st : ChatState) (e : Event) : option Request * ChatState :=
  match e with
  | Received message => (None, handleMessage st message)
  | Typed value cursorPosition => handleInputChange st value cursorPosition
  | Clicked cursorPosition file => (None, handleSuggestionClick st cursorPosition file)
  | Removed filePath => (None, removeAttachedFile st filePath)
  | Sent => sendMessage st
  end.

(** The requests posted and the state reached by a sequence of events. *)
Fixpoint run (st : ChatState) (events : list Event) : list Request * ChatState :=
  match events with
  | [] => ([], st)
  | e :: rest =>
      let (posted, st') := step st e in
      let (more, final) := run st' rest in
      (match posted with
       | Some r => r :: more
       | None => more
       end, final)
  end.

End ChatPanel.

(** ** fileManager.ts *)

Module FileManager.
Import JS Path.

Definition imageExtensions : list string :=
  [".png"; ".jpg"; ".jpeg"; ".gif"; ".bmp"; ".svg"; ".webp"; ".ico"].

Definition isImageFile (filePath : string) : bool :=
  array_includes imageExtensions (toLowerCase (extname filePath)).

(** *** [formatFileSize]

    [bytes] is a file size: a non-negative integer.  The index
    [Math.floor(Math.log(bytes) / Math.log(1024))] is taken at its
    mathematical value, the integer logarithm to base 1024.  The quotient
    [bytes / Math.pow(1024, i)] is a division by a power of two, hence
    exact, so [toFixed(2)] rounds the true quotient to hundredths (the
    larger candidate on a tie) and the number printed is that decimal
    without trailing zeros. *)

Definition sizes : list string := ["Bytes"; "KB"; "MB"; "GB"].

Definition unitIndex (bytes : Z) : Z := (Z.log2 bytes / 10)%Z.

Definition hundredths (bytes i : Z) : Z :=
  ((200 * bytes + 1024 ^ i) / (2 * 1024 ^ i))%Z.

Definition dec (z : Z) : string :=
  NilEmpty.string_of_uint (N.to_uint (Z.to_N z)).

Definition showHundredths (h : Z) : string :=
  let q := (h / 100)%Z in
  let r := (h mod 100)%Z in
  if (r =? 0)%Z then dec q
  else if (r mod 10 =? 0)%Z then dec q ++ "." ++ dec (r / 10)
  else dec q ++ "." ++ dec (r / 10) ++ dec (r mod 10).

(** [sizes[i]] inside a string concatenation: a missing element prints
    as [undefined]. *)
Definition unitName (i : Z) : string :=
  match nth_error sizes (Z.to_nat i) with
  | Some u => u
  | None => "undefined"
  end.

Definition formatFileSize (bytes : Z) : string :=
  if (bytes =? 0)%Z then "0 Bytes"
  else
    let i := unitIndex bytes in
    showHundredths (hundredths bytes i) ++ " " ++ unitName i.

(** *** [getImageMetadata] *)

Definition imageType (filePath : string) : string :=
  toUpperCase (substring1 (extname filePath)).

Definition fullSummary (filePath : string) (stats : Stats) : string :=
  "[Image: " ++ basename filePath ++ "]" ++ nl ++
  "Type: " ++ imageType filePath ++ nl ++
  "Size: " ++ formatFileSize (size stats) ++ nl ++
  "Path: " ++ filePath ++ nl ++
  "Modified: " ++ mtime_toLocaleDateString stats ++ nl ++ nl ++
  "This is an image file. I can see the file metadata but cannot directly analyze the image content. If you need image analysis, please describe what you'd like me to help you with regarding this image.".

Definition reducedSummary (filePath : string) : string :=
  "[Image: " ++ basename filePath ++ "]" ++ nl ++
  "Type: " ++ imageType filePath ++ nl ++
  "Path: " ++ filePath ++ nl ++ nl ++
  "This is an image file. I can reference it in our conversation but cannot directly analyze the image content.".

Definition getImageMetadata (w : World) (filePath : string) : string :=
  match fs_statSync w filePath with
  | Ok stats => fullSummary filePath stats
  | Throw _ => reducedSummary filePath
  end.

(** *** [resolveFilePath] *)

Definition resolveFilePath (w : World) (relativePath : string)
  : result string :=
  match workspaceFolders w with
  | None => Throw "No workspace folder"
  | Some folders =>
      match Array_find (fun folder => fs_access w (join folder relativePath))
                       folders with
      | Some folder => Ok (join folder relativePath)
      | None =>
          match findFiles w ("**/" ++ basename relativePath) None None with
          | Throw m => Throw m
          | Ok files =>
              match Array_find
                      (fun file => String.eqb (asRelativePath w file) relativePath)
                      files with
              | Some exactMatch => Ok exactMatch
              | None => Throw ("File not found: " ++ relativePath)
              end
          end
      end
  end.

(** The path [readFileContent] goes on to read. *)
Definition resolve (w : World) (filePath : string) : result string :=
  if isAbsolute filePath then Ok filePath else resolveFilePath w filePath.

(** *** [readFileContent] *)

Definition readResolved (w : World) (filePath : string) : result string :=
  match resolve w filePath with
  | Throw m => Throw m
  | Ok fullPath =>
      if isImageFile fullPath then Ok (getImageMetadata w fullPath)
      else openTextDocument w fullPath
  end.

Definition readFileContent (w : World) (filePath : string) : result string :=
  match workspaceFolders w with
  | None => Throw "No workspace folder open"
  | Some _ =>
      match readResolved w filePath with
      | Ok content => Ok content
      | Throw m => Throw ("Could not read file '" ++ filePath ++ "': " ++ m)
      end
  end.

(** *** [getLanguageFromFile] *)

Definition languageMap : list (string * string) :=
  [ (".js", "javascript"); (".ts", "typescript"); (".jsx", "javascript");
    (".tsx", "typescript"); (".py", "python"); (".java", "java");
    (".c", "c"); (".cpp", "cpp"); (".cs", "csharp"); (".php", "php");
    (".rb", "ruby"); (".go", "go"); (".rs", "rust"); (".swift", "swift");
    (".kt", "kotlin"); (".scala", "scala"); (".html", "html");
    (".css", "css"); (".scss", "scss"); (".json", "json"); (".xml", "xml");
    (".yaml", "yaml"); (".yml", "yaml"); (".md", "markdown");
    (".sh", "bash"); (".sql", "sql") ].

Definition getLanguageFromFile (filePath : string) : string :=
  ChatPanel.or_else
    (ChatPanel.lookup (toLowerCase (extname filePath)) languageMap) "text".

(** *** [shouldIncludeFile] *)

Definition textExtensions : list string :=
  [ ".js"; ".ts"; ".jsx"; ".tsx"; ".html"; ".css"; ".scss"; ".less";
    ".json"; ".xml"; ".yaml"; ".yml"; ".md"; ".txt"; ".py"; ".java";
    ".c"; ".cpp"; ".h"; ".cs"; ".php"; ".rb"; ".go"; ".rs"; ".swift";
    ".kt"; ".scala"; ".sh"; ".bat"; ".ps1"; ".sql"; ".r"; ".m"; ".pl" ].

Definition textFilenames : list string :=
  ["readme"; "dockerfile"; "makefile"; "license"; "changelog"].

Definition shouldIncludeFile (filePath extension : string) : bool :=
  if array_includes textExtensions extension
     || array_includes imageExtensions extension then true
  else if negb (ChatPanel.nonempty extension) then
    let filename := toLowerCase (basename filePath) in
    existsb (fun name => includes filename name) textFilenames
  else false.

(** *** [getWorkspaceFiles] *)

Record FileInfo := {
  fi_path : string;
  fi_fullPath : string;
  fi_name : string;
  fi_extension : string;
  fi_isImage : bool
}.

Definition toFileInfo (w : World) (file : string) : FileInfo :=
  let extension := toLowerCase (extname file) in
  {| fi_path := asRelativePath w file;
     fi_fullPath := file;
     fi_name := basename file;
     fi_extension := extension;
     fi_isImage := array_includes imageExtensions extension |}.

Section WorkspaceFiles.
(** [a.localeCompare(b)], which depends on the locale of the host. *)
Variable localeCompare : string -> string -> Z.

Definition compareInfo (query : string) (a b : FileInfo) : Z :=
  let byPath := localeCompare (fi_path a) (fi_path b) in
  if ChatPanel.nonempty query then
    let aExact := includes (toLowerCase (fi_name a)) (toLowerCase query) in
    let bExact := includes (toLowerCase (fi_name b)) (toLowerCase query) in
    if aExact && negb bExact then (-1)%Z
    else if negb aExact && bExact then 1%Z
    else byPath
  else byPath.

Definition getWorkspaceFiles (w : World) (query : string) (limit : nat)
  : list FileInfo :=
  match workspaceFolders w with
  | None => []
  | Some _ =>
      let searchPattern :=
        if ChatPanel.nonempty query then "**/*" ++ query ++ "*" else "**/*" in
      match findFiles w searchPattern (Some "**/node_modules/**") (Some limit) with
      | Throw _ => []
      | Ok files =>
          let fileInfos :=
            map (toFileInfo w)
                (filter (fun file => shouldIncludeFile file (toLowerCase (extname file)))
                        files) in
          Array_sort (compareInfo query) fileInfos
      end
  end.
End WorkspaceFiles.

(** *** [getRecentFiles] *)

Definition recentGlob : string :=
  "**/*.{js,ts,jsx,tsx,py,java,c,cpp,cs,php,rb,go}".

Definition getRecentFiles (w : World) : list string :=
  match workspaceFolders w with
  | None => []
  | Some _ =>
      match findFiles w recentGlob (Some "**/node_modules/**") (Some 10%nat) with
      | Ok files => map (asRelativePath w) files
      | Throw _ => []
      end
  end.

End FileManager.

(** ** The ranking of section 4.3 of the specification

    Written from the specification's words, to be compared with
    [ChatPanel.rankFiles]: candidates ordered by the additive score, higher
    first; equal scores by ascending path length, then by lexicographic
    path order. *)

Module Spec.
Import JS.

Definition compareSpec (query : string) (a b : ChatPanel.FileEntry) : Z :=
  let sa := ChatPanel._calculateRelevance a query in
  let sb := ChatPanel._calculateRelevance b query in
  let la := String.length (ChatPanel.path a) in
  let lb := String.length (ChatPanel.path b) in
  if (sb <? sa)%Z then (-1)%Z
  else if (sa <? sb)%Z then 1%Z
  else if Nat.ltb la lb then (-1)%Z
  else if Nat.ltb lb la then 1%Z
  else match String.compare (ChatPanel.path a) (ChatPanel.path b) with
       | Lt => (-1)%Z
       | Eq => 0%Z
       | Gt => 1%Z
       end.

Definition rank (query : string) (candidates : list ChatPanel.FileEntry)
  : list ChatPanel.FileEntry :=
  Array_sort (compareSpec query) candidates.

End Spec.

(** ** Concrete workspaces

    One folder on a case-sensitive file system, given by the files it
    holds.  [findFiles] answers the globs the two classes issue, two stars
    and a slash followed by literal characters and single stars: a file is
    found when the rest of the glob matches its path relative to the
    folder, or what follows one of the separators of that path; a star
    stands for any characters other than the separator. *)

Module Fixture.
Import JS Path.

Fixpoint drop (n : nat) (s : string) : string :=
  match n, s with
  | O, _ => s
  | S m, String _ r => drop m r
  | S _, EmptyString => EmptyString
  end.

Definition relativeTo (root p : string) : string :=
  if String.prefix (root ++ "/") p then drop (String.length root + 1) p
  else p.

Definition limit {A : Type} (maxResults : option nat) (l : list A) : list A :=
  match maxResults with
  | Some n => firstn n l
  | None => l
  end.

Definition is_star (c : ascii) : bool := Ascii.eqb c "*"%char.

Fixpoint glob_match (pat : list ascii) (s : list ascii) {struct pat} : bool :=
  match pat with
  | [] => match s with [] => true | _ :: _ => false end
  | c :: pat' =>
      if is_star c then
        (fix star (s : list ascii) : bool :=
           glob_match pat' s
           || match s with
              | x :: s' => negb (is_slash x) && star s'
              | [] => false
              end) s
      else match s with
           | x :: s' => Ascii.eqb c x && glob_match pat' s'
           | [] => false
           end
  end.

Fixpoint after_separators (s : list ascii) : list (list ascii) :=
  match s with
  | [] => []
  | c :: r => if is_slash c then r :: after_separators r
              else after_separators r
  end.

Definition globSuffix (root : string) (paths : list string)
           (include : string) (maxResults : option nat) : list string :=
  if String.prefix "**/" include then
    let pat := chars (drop 3 include) in
    limit maxResults
      (filter (fun p => let rel := chars (relativeTo root p) in
                        existsb (glob_match pat) (rel :: after_separators rel))
              paths)
  else [].

Fixpoint content_of (files : list (string * result string)) (p : string)
  : result string :=
  match files with
  | [] => Throw ("cannot open " ++ p)
  | (q, c) :: r => if String.eqb q p then c else content_of r p
  end.

Definition workspace (root : string) (files : list (string * result string))
           (stat : string -> result Stats) : World :=
  {| workspaceFolders := Some [root];
     findFiles := fun include _ maxResults =>
                    Ok (globSuffix root (map fst files) include maxResults);
     asRelativePath := relativeTo root;
     fs_access := fun p => array_includes (map fst files) p;
     openTextDocument := content_of files;
     fs_statSync := stat;
     callAI := fun _ => Ok "done" |}.

Definition noStat (p : string) : result Stats := Throw ("ENOENT: " ++ p).

(** [/ws] holding [a.ts] and an unreadable [b.ts]. *)
Definition ws_ab : World :=
  workspace "/ws"
    [ ("/ws/a.ts", Ok "let a = 1;");
      ("/ws/b.ts", Throw "cannot open /ws/b.ts") ]
    noStat.

(** [/ws] holding [src/app.ts] and [main.py]. *)
Definition ws_app : World :=
  workspace "/ws"
    [ ("/ws/src/app.ts", Ok "export {};");
      ("/ws/main.py", Ok "print(1)") ]
    noStat.

(** [/ws] holding [zapp.md] and [src/app.ts]. *)
Definition ws_rank : World :=
  workspace "/ws"
    [ ("/ws/zapp.md", Ok "# zapp");
      ("/ws/src/app.ts", Ok "export {};") ]
    noStat.

(** [/ws] holding [logo.png] (2 MB), [icon.webp] and [favicon.ico]. *)
Definition ws_img : World :=
  workspace "/ws"
    [ ("/ws/logo.png", Ok "PNG-bytes");
      ("/ws/icon.webp", Ok "RIFF-bytes");
      ("/ws/favicon.ico", Ok "ICO-bytes") ]
    (fun p => if String.eqb p "/ws/logo.png"
              then Ok {| size := 2097152; mtime_toLocaleDateString := "1/2/2025" |}
              else Throw ("ENOENT: " ++ p)).

Definition entry (p : string) : ChatPanel.FileEntry :=
  ChatPanel.toEntry ws_app ("/ws/" ++ p).

(** No folder is open. *)
Definition noFolder : World :=
  {| workspaceFolders := None;
     findFiles := fun _ _ _ => Ok [];
     asRelativePath := fun p => p;
     fs_access := fun _ => false;
     openTextDocument := fun p => Throw ("cannot open " ++ p);
     fs_statSync := noStat;
     callAI := fun _ => Ok "done" |}.

(** [/ws] as in [ws_app], with a search service that fails. *)
Definition failingSearch : World :=
  {| workspaceFolders := workspaceFolders ws_app;
     findFiles := fun _ _ _ => Throw "search failed";
     asRelativePath := asRelativePath ws_app;
     fs_access := fs_access ws_app;
     openTextDocument := openTextDocument ws_app;
     fs_statSync := fs_statSync ws_app;
     callAI := callAI ws_app |}.

(** Two folders, [/one] and [/two]; only [/two] holds [a.ts]. *)
Definition twoRoots : World :=
  {| workspaceFolders := Some ["/one"; "/two"];
     findFiles := fun _ _ _ => Ok [];
     asRelativePath := fun p => p;
     fs_access := fun p => String.eqb p "/two/a.ts";
     openTextDocument := fun p => if String.eqb p "/two/a.ts" then Ok "let a = 2;"
                                  else Throw ("cannot open " ++ p);
     fs_statSync := noStat;
     callAI := fun _ => Ok "done" |}.

End Fixture.

(** ** The document store of a world replaced *)

Definition with_documents (w : World) (docs : string -> result string) : World :=
  {| workspaceFolders := workspaceFolders w;
     findFiles := findFiles w;
     asRelativePath := asRelativePath w;
     fs_access := fs_access w;
     openTextDocument := docs;
     fs_statSync := fs_statSync w;
     callAI := callAI w |}.

(** ** The order the comparator of [_getWorkspaceFiles] induces *)

Module RankOrder.
Import JS ChatPanel.

Definition isExact (nq : string) (f : FileEntry) : bool :=
  String.eqb (toLowerCase (path f)) nq.

Definition containsQuery (nq : string) (f : FileEntry) : bool :=
  includes (toLowerCase (path f)) nq.

(** [a] may stand before [b]: an exact match before a non-exact one;
    among equally exact ones a path containing the query before one
    that does not; otherwise the shorter path first. *)
Definition notAfter (nq : string) (a b : FileEntry) : Prop :=
  (isExact nq a = true /\ isExact nq b = false)
  \/ (isExact nq a = isExact nq b
      /\ ((containsQuery nq a = true /\ containsQuery nq b = false)
          \/ (containsQuery nq a = containsQuery nq b
              /\ String.length (path a) <= String.length (path b)))).

(** [a] and [b] agree on all three criteria. *)
Definition sameRank (nq : string) (a b : FileEntry) : bool :=
  Bool.eqb (isExact nq a) (isExact nq b)
  && Bool.eqb (containsQuery nq a) (containsQuery nq b)
  && Nat.eqb (String.length (path a)) (String.length (path b)).
End RankOrder.

(** ** The generation call of a world replaced *)

Definition with_callAI (w : World) (call : string -> result string) : World :=
  {| workspaceFolders := workspaceFolders w;
     findFiles := findFiles w;
     asRelativePath := asRelativePath w;
     fs_access := fs_access w;
     openTextDocument := openTextDocument w;
     fs_statSync := fs_statSync w;
     callAI := call |}.

(** ** aiService.ts *)

Module AIService.
Import JS.

Record ChatMessage := { role : string; content : string }.

(** The fields set by the constructor. *)
Record Service := {
  apiKey : string;
  apiUrl : string;
  model : string
}.

(** [new AIService()] for the settings [apiKey], [apiUrl] and [model]. *)
Definition constructor (cfgKey cfgUrl cfgModel : option string) : Service :=
  {| apiKey := ChatPanel.or_else cfgKey "";
     apiUrl := ChatPanel.or_else cfgUrl "https://api.deepseek.com/v1/chat/completions";
     model := ChatPanel.or_else cfgModel "deepseek-coder" |}.

Record Options := {
  maxTokens : option Z;
  temperature : option string;      (* the literal of the source *)
  stream : option bool
}.

Record Request := {
  req_url : string;
  req_model : string;
  req_messages : list ChatMessage;
  req_max_tokens : Z;
  req_temperature : string;
  req_stream : bool;
  req_stop : option string;          (* [stop: null] *)
  req_Authorization : string;
  req_Content_Type : string;
  req_Accept : string;
  req_timeout : Z
}.

(** What [axios.post] comes back with. *)
Inductive Failure :=
| AxiosError (status : option Z) (code : option string)
             (dataErrorMessage : option string) (message : string)
| OtherError (message : string).

Inductive Outcome :=
| Response (choices : option (list string))  (* [data.choices], contents only *)
| Failed (e : Failure).

Definition Axios : Type := Request -> Outcome.

Definition missingKey : string :=
  "DeepSeek API key is not configured. Please set it in VS Code settings.".

Definition default {A : Type} (o : option A) (d : A) : A :=
  match o with
  | Some a => a
  | None => d
  end.

Definition requestOf (svc : Service) (messages : list ChatMessage)
           (options : Options) : Request :=
  {| req_url := apiUrl svc;
     req_model := model svc;
     req_messages := messages;
     req_max_tokens := default (maxTokens options) 2048%Z;
     req_temperature := default (temperature options) "0.1";
     req_stream := default (stream options) false;
     req_stop := None;
     req_Authorization := "Bearer " ++ apiKey svc;
     req_Content_Type := "application/json";
     req_Accept := "application/json";
     req_timeout := 30000 |}.

Definition describeFailure (e : Failure) : string :=
  match e with
  | OtherError message => message
  | AxiosError status code dataErrorMessage message =>
      let statusIs st := match status with
                   | Some s => Z.eqb s st
                   | None => false
                   end in
      if statusIs 401%Z then "Invalid API key. Please check your DeepSeek API key in settings."
      else if statusIs 429%Z then "Rate limit exceeded. Please try again later."
      else if statusIs 500%Z then "AI service is temporarily unavailable. Please try again later."
      else if match code with
              | Some c => String.eqb c "ECONNABORTED"
              | None => false
              end
      then "Request timeout. Please try again."
      else "API Error: " ++ ChatPanel.or_else dataErrorMessage message
  end.

Definition generateResponse (svc : Service) (post : Axios)
           (messages : list ChatMessage) (options : Options) : result string :=
  if ChatPanel.nonempty (apiKey svc) then
    match post (requestOf svc messages options) with
    | Response (Some (first :: _)) => Ok first
    | Response _ => Throw "No response generated from AI service"
    | Failed e => Throw (describeFailure e)
    end
  else Throw missingKey.

Definition baseSystemContent : string :=
  "You are an expert AI code assistant integrated into VS Code. Your role is to:" ++ nl ++ nl ++
  "1. Help users write, debug, and improve their code" ++ nl ++
  "2. Provide clear explanations of code concepts and implementations" ++ nl ++
  "3. Generate high-quality, well-commented code snippets" ++ nl ++
  "4. Suggest best practices and optimizations" ++ nl ++
  "5. Help with code reviews and refactoring" ++ nl ++ nl ++
  "Guidelines:" ++ nl ++
  "- Always provide working, tested code when possible" ++ nl ++
  "- Include clear comments explaining complex logic" ++ nl ++
  "- Follow the coding style and conventions of the project" ++ nl ++
  "- Suggest modern, efficient solutions" ++ nl ++
  "- Be concise but thorough in explanations" ++ nl ++
  "- If you're unsure about something, ask for clarification".

Definition createSystemPrompt (workspaceContext : option string) : ChatMessage :=
  {| role := "system";
     content :=
       match workspaceContext with
       | Some ctx =>
           if ChatPanel.nonempty ctx
           then baseSystemContent ++ nl ++ nl ++ "Current workspace context:" ++ nl ++ ctx
           else baseSystemContent
       | None => baseSystemContent
       end |}.

Record Attached := { att_path : string; att_content : string }.

Definition fence : string := "```".

Definition fileSection (file : Attached) : string :=
  nl ++ "### " ++ att_path file ++ nl ++ fence ++ nl ++ att_content file ++ nl
  ++ fence ++ nl.

Definition userContent (userPrompt : string) (attachedFiles : list Attached)
  : string :=
  match attachedFiles with
  | [] => userPrompt
  | _ => fold_left (fun acc file => acc ++ fileSection file) attachedFiles
           (userPrompt ++ nl ++ nl ++ "Referenced files:" ++ nl)
  end.

Definition formatCodeGenerationPrompt (userPrompt : string)
           (attachedFiles : list Attached) (workspaceContext : option string)
  : list ChatMessage :=
  [ createSystemPrompt workspaceContext;
    {| role := "user"; content := userContent userPrompt attachedFiles |} ].

Definition generateCode (svc : Service) (post : Axios) (prompt : string)
           (attachedFiles : list Attached) (workspaceContext : option string)
  : result string :=
  generateResponse svc post
    (formatCodeGenerationPrompt prompt attachedFiles workspaceContext)
    {| maxTokens := Some 2048%Z; temperature := Some "0.1"; stream := None |}.

Definition explainMessages (code : string) (context : option string)
  : list ChatMessage :=
  [ createSystemPrompt None;
    {| role := "user";
       content :=
         "Please explain the following code in detail, including what it does, how it works, and any potential improvements:"
         ++ nl ++ nl ++ fence ++ nl ++ code ++ nl ++ fence
         ++ match context with
            | Some ctx => if ChatPanel.nonempty ctx
                          then nl ++ nl ++ "Additional context: " ++ ctx
                          else ""
            | None => ""
            end |} ].

Definition explainCode (svc : Service) (post : Axios) (code : string)
           (context : option string) : result string :=
  generateResponse svc post (explainMessages code context)
    {| maxTokens := Some 1500%Z; temperature := Some "0.2"; stream := None |}.

Definition reviewMessages (code : string) (language : option string)
  : list ChatMessage :=
  let lang := ChatPanel.or_else language "" in
  [ createSystemPrompt None;
    {| role := "user";
       content :=
         "Please review the following " ++ lang ++ " code and provide feedback on:" ++ nl ++
         "1. Code quality and best practices" ++ nl ++
         "2. Potential bugs or issues" ++ nl ++
         "3. Performance optimizations" ++ nl ++
         "4. Security considerations" ++ nl ++
         "5. Suggestions for improvement" ++ nl ++ nl ++
         "Code to review:" ++ nl ++
         fence ++ lang ++ nl ++ code ++ nl ++ fence |} ].

Definition reviewCode (svc : Service) (post : Axios) (code : string)
           (language : option string) : result string :=
  generateResponse svc post (reviewMessages code language)
    {| maxTokens := Some 2000%Z; temperature := Some "0.2"; stream := None |}.

Definition refactorMessages (code requirements : string)
           (language : option string) : list ChatMessage :=
  let lang := ChatPanel.or_else language "" in
  [ createSystemPrompt None;
    {| role := "user";
       content :=
         "Please refactor the following " ++ lang
         ++ " code based on these requirements: " ++ requirements ++ nl ++ nl ++
         "Original code:" ++ nl ++
         fence ++ lang ++ nl ++ code ++ nl ++ fence ++ nl ++ nl ++
         "Please provide the refactored code with explanations of the changes made." |} ].

Definition refactorCode (svc : Service) (post : Axios)
           (code requirements : string) (language : option string)
  : result string :=
  generateResponse svc post (refactorMessages code requirements language)
    {| maxTokens := Some 2048%Z; temperature := Some "0.1"; stream := None |}.

End AIService.

(** * Facts about the primitives *)

Section StringFacts.
Import JS.

Lemma append_assoc (a b c : string) : (a ++ b) ++ c = a ++ (b ++ c).
Proof. induction a as [|x a IH]; simpl; [reflexivity | now rewrite IH]. Qed.

Lemma prefix_append (sub post : string) : String.prefix sub (sub ++ post) = true.
Proof.
  induction sub as [|x sub IH]; simpl.
  - now destruct post.
  - destruct (ascii_dec x x) as [_|ne]; [exact IH | now elim ne].
Qed.

Lemma includes_unfold (s sub : string) :
  includes s sub =
  if String.prefix sub s then true
  else match s with
       | EmptyString => false
       | String _ r => includes r sub
       end.
Proof. now destruct s. Qed.

Lemma includes_append (pre sub post : string) :
  includes (pre ++ sub ++ post) sub = true.
Proof.
  induction pre as [|x pre IH].
  - simpl. rewrite includes_unfold, prefix_append. reflexivity.
  - change (String x pre ++ sub ++ post) with (String x (pre ++ sub ++ post)).
    rewrite includes_unfold.
    destruct (String.prefix sub (String x (pre ++ sub ++ post))); auto.
Qed.

Lemma includes_self (s : string) : includes s s = true.
Proof.
  rewrite includes_unfold.
  replace (String.prefix s s) with true; [reflexivity|].
  symmetry. induction s as [|x s IH]; simpl; [reflexivity|].
  destruct (ascii_dec x x) as [_|ne]; [exact IH | now elim ne].
Qed.

Lemma upper_lower_char (c : ascii) : upper_char (lower_char c) = upper_char c.
Proof. destruct c as [[] [] [] [] [] [] [] []]; reflexivity. Qed.

Lemma toUpperCase_toLowerCase (s : string) :
  toUpperCase (toLowerCase s) = toUpperCase s.
Proof.
  induction s as [|c s IH]; simpl; [reflexivity|].
  unfold toUpperCase, toLowerCase in *. simpl.
  now rewrite upper_lower_char, IH.
Qed.

Lemma substring1_toLowerCase (s : string) :
  substring1 (toLowerCase s) = toLowerCase (substring1 s).
Proof. now destruct s. Qed.

(** The upper-cased extension is fixed by the lower-cased one. *)
Lemma upper_of_lowered_extension (e low : string) :
  toLowerCase e = low ->
  toUpperCase (substring1 e) = toUpperCase (substring1 low).
Proof.
  intros <-. now rewrite substring1_toLowerCase, toUpperCase_toLowerCase.
Qed.

Lemma array_includes_In (xs : list string) (x : string) :
  array_includes xs x = true <-> In x xs.
Proof.
  unfold array_includes. rewrite existsb_exists. split.
  - intros (y & Hy & E). apply String.eqb_eq in E. now subst.
  - intros H. exists x. split; [exact H | apply String.eqb_refl].
Qed.

Lemma array_includes_not_In (xs : list string) (x : string) :
  array_includes xs x = false <-> ~ In x xs.
Proof.
  rewrite <- array_includes_In. destruct (array_includes xs x); split; congruence.
Qed.
End StringFacts.

(** * Facts about [Set] *)

Section SetFacts.
Import JS.

Lemma In_Set_add (s : list string) (x y : string) :
  In y (Set_add s x) <-> In y s \/ y = x.
Proof.
  unfold Set_add. destruct (array_includes s x) eqn:E.
  - apply array_includes_In in E. split; [auto | intros [H | ->]; auto].
  - rewrite in_app_iff. simpl. intuition.
Qed.

Lemma NoDup_Set_add (s : list string) (x : string) :
  NoDup s -> NoDup (Set_add s x).
Proof.
  intros H. unfold Set_add. destruct (array_includes s x) eqn:E; [exact H|].
  apply array_includes_not_In in E.
  apply NoDup_rev in H. rewrite <- (rev_involutive (s ++ [x])%list).
  apply NoDup_rev. rewrite rev_app_distr. simpl. constructor; [|exact H].
  now rewrite <- in_rev.
Qed.

Lemma NoDup_fold_Set_add (f : string -> string) (xs acc : list string) :
  NoDup acc -> NoDup (fold_left (fun s x => Set_add s (f x)) xs acc).
Proof.
  revert acc. induction xs as [|x xs IH]; intros acc H; simpl; [exact H|].
  apply IH, NoDup_Set_add, H.
Qed.

Lemma In_fold_Set_add (f : string -> string) (xs acc : list string) (y : string) :
  In y (fold_left (fun s x => Set_add s (f x)) xs acc)
  <-> In y acc \/ In y (map f xs).
Proof.
  revert acc. induction xs as [|x xs IH]; intros acc; simpl; [tauto|].
  rewrite IH, In_Set_add. intuition.
Qed.

Lemma snoc_split (acc l1 a2 : list string) (x a : string) :
  (acc ++ [x])%list = (l1 ++ a :: a2)%list ->
  (a2 = [] /\ l1 = acc /\ a = x)
  \/ exists a2', a2 = (a2' ++ [x])%list /\ acc = (l1 ++ a :: a2')%list.
Proof.
  intros E. destruct (exists_last (l := a :: a2)) as (body & z & Hz); [discriminate|].
  rewrite Hz, app_assoc in E. apply app_inj_tail in E as [E1 E2]. subst z.
  destruct a2 as [|b a2].
  - left. destruct body as [|? body].
    + simpl in Hz. injection Hz as ->. rewrite app_nil_r in E1. auto.
    + simpl in Hz. injection Hz as _ Hz. now destruct body.
  - right. destruct body as [|c body]; [discriminate Hz|].
    simpl in Hz. injection Hz as -> Hz.
    exists body. split; [exact Hz | exact E1].
Qed.

(** Members stand in the order of their first insertion. *)
Lemma fold_Set_add_order (xs acc : list string) :
  NoDup acc ->
  forall l1 a l2,
    fold_left Set_add xs acc = (l1 ++ a :: l2)%list ->
    (exists a2, acc = (l1 ++ a :: a2)%list)
    \/ (~ In a acc
        /\ exists m1 m2, xs = (m1 ++ a :: m2)%list /\ ~ In a m1
                         /\ forall y, In y l1 <-> In y acc \/ In y m1).
Proof.
  revert acc. induction xs as [|x xs IH]; intros acc ND l1 a l2 E; simpl in E.
  - left. now exists l2.
  - destruct (IH _ (NoDup_Set_add _ x ND) _ _ _ E)
      as [(a2 & Hacc) | (Hnin & m1 & m2 & Hxs & Hm1 & Hl1)].
    + unfold Set_add in Hacc. destruct (array_includes acc x) eqn:Ex.
      * left. now exists a2.
      * apply array_includes_not_In in Ex.
        apply snoc_split in Hacc as [(-> & -> & ->) | (a2' & -> & ->)].
        -- right. split; [exact Ex|]. exists [], xs. simpl.
           split; [reflexivity|]. split; [tauto|]. intros y. tauto.
        -- left. now exists a2'.
    + right.
      assert (Ha : ~ In a acc /\ a <> x).
      { split; intros H; apply Hnin, In_Set_add; auto. }
      destruct Ha as [Hacc Hax]. split; [exact Hacc|].
      exists (x :: m1), m2. subst xs. split; [reflexivity|]. split.
      * simpl. intros [H | H]; [now apply Hax | now apply Hm1].
      * intros y. rewrite Hl1, In_Set_add. simpl.
        unfold Set_add in *. intuition.
Qed.

Lemma Set_of_NoDup (xs : list string) : NoDup (Set_of xs).
Proof.
  unfold Set_of.
  rewrite <- (map_id xs) at 1.
  change Set_add with (fun s x => Set_add s ((fun y : string => y) x)).
  apply (NoDup_fold_Set_add (fun y => y)). constructor.
Qed.

Lemma In_Set_of (xs : list string) (y : string) : In y (Set_of xs) <-> In y xs.
Proof.
  unfold Set_of.
  pose proof (In_fold_Set_add (fun y => y) xs [] y) as H.
  rewrite map_id in H. simpl in H. tauto.
Qed.
End SetFacts.

(** * Facts about [Array.prototype.sort] *)

Section SortFacts.
Import JS.
Context {A : Type} (cmp : A -> A -> Z).

Local Abbreviation cmp_le := (JS.cmp_le cmp).

Lemma sort_insert_perm (x : A) (l : list A) :
  Permutation (x :: l) (sort_insert cmp x l).
Proof.
  induction l as [|y l IH]; simpl; [reflexivity|].
  destruct (cmp x y <=? 0)%Z; [reflexivity|].
  rewrite perm_swap. now constructor.
Qed.

Lemma Array_sort_perm (l : list A) : Permutation l (Array_sort cmp l).
Proof.
  induction l as [|x l IH]; simpl; [constructor|].
  rewrite <- sort_insert_perm. now constructor.
Qed.

Hypothesis cmp_trans :
  forall a b c, cmp_le a b -> cmp_le b c -> cmp_le a c.
Hypothesis cmp_total : forall a b, cmp_le a b \/ cmp_le b a.

Lemma sort_insert_sorted (x : A) (l : list A) :
  StronglySorted cmp_le l -> StronglySorted cmp_le (sort_insert cmp x l).
Proof.
  induction 1 as [|y l Hs IH Hy]; simpl.
  - repeat constructor.
  - destruct (cmp x y <=? 0)%Z eqn:E.
    + apply Z.leb_le in E. constructor; [now constructor|].
      constructor; [exact E|].
      eapply Forall_impl; [|exact Hy]. intros z Hz. now apply cmp_trans with y.
    + apply Z.leb_gt in E. constructor; [exact IH|].
      assert (Hyx : cmp_le y x).
      { destruct (cmp_total y x) as [H | H]; [exact H|]. unfold cmp_le in H. lia. }
      eapply Permutation_Forall; [apply sort_insert_perm|].
      now constructor.
Qed.

Lemma Array_sort_sorted (l : list A) : StronglySorted cmp_le (Array_sort cmp l).
Proof.
  induction l as [|x l IH]; simpl; [constructor | now apply sort_insert_sorted].
Qed.

(** Stability: elements that never compare greater than one another keep
    their input order. *)
Section Stable.
Variable p : A -> bool.
Hypothesis p_ties : forall a b, p a = true -> p b = true -> cmp_le a b.

Lemma sort_insert_filter (x : A) (l : list A) :
  filter p (sort_insert cmp x l) = filter p (x :: l).
Proof.
  induction l as [|y l IH]; [reflexivity|].
  cbn [sort_insert]. destruct (cmp x y <=? 0)%Z eqn:E; [reflexivity|].
  apply Z.leb_gt in E.
  cbn [filter] in *. rewrite IH.
  destruct (p x) eqn:Px, (p y) eqn:Py; try reflexivity.
  specialize (p_ties x y Px Py). unfold cmp_le in p_ties. lia.
Qed.

Lemma Array_sort_filter (l : list A) :
  filter p (Array_sort cmp l) = filter p l.
Proof.
  induction l as [|x l IH]; [reflexivity|].
  cbn [Array_sort fold_right]. rewrite sort_insert_filter.
  cbn [filter]. fold (Array_sort cmp l). now rewrite IH.
Qed.
End Stable.
End SortFacts.

(** * Ranking of workspace files *)

Section Ranking.
Import JS ChatPanel RankOrder.

Variable nq : string.

Lemma compareFn_le (a b : FileEntry) :
  (compareFn nq a b <= 0)%Z <-> notAfter nq a b.
Proof.
  unfold compareFn, notAfter, isExact, containsQuery.
  destruct (String.eqb (toLowerCase (path a)) nq),
           (String.eqb (toLowerCase (path b)) nq),
           (includes (toLowerCase (path a)) nq),
           (includes (toLowerCase (path b)) nq);
    cbn; split; intros H;
    repeat match goal with
           | H : _ \/ _ |- _ => destruct H
           | H : _ /\ _ |- _ => destruct H
           end;
    try discriminate; try lia; try (left; split; reflexivity);
    try (right; split; [reflexivity|]; left; split; reflexivity);
    try (right; split; [reflexivity|]; right; split; [reflexivity | lia]).
Qed.

Lemma compareFn_tie (a b : FileEntry) :
  sameRank nq a b = true -> (compareFn nq a b <= 0)%Z.
Proof.
  unfold sameRank. rewrite !andb_true_iff, Nat.eqb_eq.
  intros [[E1 E2] E3]. apply eqb_prop in E1, E2.
  apply compareFn_le. right. split; [exact E1|]. right. split; [exact E2 | lia].
Qed.

Lemma notAfter_trans (a b c : FileEntry) :
  notAfter nq a b -> notAfter nq b c -> notAfter nq a c.
Proof.
  unfold notAfter.
  destruct (isExact nq a), (isExact nq b), (isExact nq c),
           (containsQuery nq a), (containsQuery nq b), (containsQuery nq c);
    intros H1 H2;
    repeat match goal with
           | H : _ \/ _ |- _ => destruct H
           | H : _ /\ _ |- _ => destruct H
           end;
    try discriminate;
    try (left; split; reflexivity);
    try (right; split; [reflexivity|]; left; split; reflexivity);
    try (right; split; [reflexivity|]; right; split; [reflexivity | lia]).
Qed.

Lemma notAfter_total (a b : FileEntry) : notAfter nq a b \/ notAfter nq b a.
Proof.
  unfold notAfter.
  destruct (isExact nq a), (isExact nq b),
           (containsQuery nq a), (containsQuery nq b);
    destruct (Nat.le_ge_cases (String.length (path a)) (String.length (path b)));
    try (left; left; split; reflexivity);
    try (right; left; split; reflexivity);
    try (left; right; split; [reflexivity|]; left; split; reflexivity);
    try (right; right; split; [reflexivity|]; left; split; reflexivity);
    try (left; right; split; [reflexivity|]; right; split; [reflexivity | lia]);
    try (right; right; split; [reflexivity|]; right; split; [reflexivity | lia]).
Qed.

Lemma sameRank_trans (k a b : FileEntry) :
  sameRank nq k a = true -> sameRank nq k b = true -> sameRank nq a b = true.
Proof.
  unfold sameRank. rewrite !andb_true_iff, !Nat.eqb_eq.
  intros [[A1 A2] A3] [[B1 B2] B3].
  apply eqb_prop in A1, A2, B1, B2.
  rewrite <- A1, <- A2, <- A3, B1, B2, B3.
  rewrite !eqb_reflx. repeat split. 
Qed.
End Ranking.

Section RankingTheorems.
Import JS ChatPanel RankOrder.

Lemma StronglySorted_weaken {A : Type} (R S : A -> A -> Prop) (l : list A) :
  (forall a b, R a b -> S a b) -> StronglySorted R l -> StronglySorted S l.
Proof.
  intros HRS. induction 1 as [|x l Hs IH Hx]; constructor; [exact IH|].
  eapply Forall_impl; [|exact Hx]. intros b. apply HRS.
Qed.

(** C1 (amended).  For every query and every list of file candidates the
    ranking of [_getWorkspaceFiles] is a rearrangement of the candidates
    in which exact case-insensitive matches of the normalised query come
    first, then paths that contain it, then shorter paths before longer
    ones; candidates that agree on all three criteria stay in the order
    in which they were found.  No additive score and no lexicographic
    comparison takes part. *)
Theorem rankFiles_order (query : string) (fileList : list FileEntry) :
  let nq := normalizeQuery query in
  Permutation fileList (rankFiles query fileList)
  /\ StronglySorted (notAfter nq) (rankFiles query fileList)
  /\ forall k, filter (sameRank nq k) (rankFiles query fileList)
               = filter (sameRank nq k) fileList.
Proof.
  intros nq. unfold rankFiles. fold nq. split; [apply Array_sort_perm|]. split.
  - apply StronglySorted_weaken with (R := cmp_le (compareFn nq)).
    + intros a b. apply compareFn_le.
    + apply Array_sort_sorted.
      * intros a b c Hab Hbc. apply compareFn_le.
        apply notAfter_trans with b; now apply compareFn_le.
      * intros a b. destruct (notAfter_total nq a b) as [H | H];
          [left | right]; now apply compareFn_le.
  - intros k. apply Array_sort_filter.
    intros a b Ha Hb. apply compareFn_tie. now apply sameRank_trans with k.
Qed.

(** C1 (as stated) fails: for the query [app] the code puts the shorter
    [zapp.md] (score 550) before [src/app.ts] (score 670), and for the
    query [x] it leaves the equally ranked [b.md] before [a.md]; the
    score order of the specification reverses both.  The first list is
    what the five searches for [app] find in a folder holding the two
    files. *)
Lemma rankFiles_is_not_score_order :
  let found := map Fixture.entry ["zapp.md"; "src/app.ts"] in
  let tied := map Fixture.entry ["b.md"; "a.md"] in
  map path (rankFiles "app" found) = ["zapp.md"; "src/app.ts"]
  /\ map (fun e => _calculateRelevance e "app") found = [550; 670]%Z
  /\ map path (Spec.rank "app" found) = ["src/app.ts"; "zapp.md"]
  /\ rankFiles "app" found <> Spec.rank "app" found
  /\ _getWorkspaceFiles Fixture.ws_rank "app" = Some found
  /\ map path (rankFiles "x" tied) = ["b.md"; "a.md"]
  /\ map path (Spec.rank "x" tied) = ["a.md"; "b.md"]
  /\ rankFiles "x" tied <> Spec.rank "x" tied.
Proof.
  cbv zeta. repeat split; try (vm_compute; reflexivity);
    vm_compute; intros H; discriminate H.
Qed.
End RankingTheorems.

(** * Mention extraction *)

Section Extraction.
Import JS Path ChatPanel.

Lemma fold_Set_add_map (f : string -> string) (xs acc : list string) :
  fold_left (fun s x => Set_add s (f x)) xs acc = fold_left Set_add (map f xs) acc.
Proof.
  revert acc. induction xs as [|x xs IH]; intros acc; simpl; [reflexivity | apply IH].
Qed.

Lemma exec_loop_no_at (text : list ascii) :
  ~ In "@"%char text -> exec_loop None text = [].
Proof.
  induction text as [|c text IH]; intros H; simpl; [reflexivity|].
  unfold is_at. destruct (Ascii.eqb_spec c "@"%char) as [-> | _].
  - exfalso. apply H. now left.
  - apply IH. intros Hin. apply H. now right.
Qed.

Lemma punct_of_ref_char (c : ascii) :
  is_ref_char c = true -> is_trailing_punct c = is_dot c.
Proof. destruct c as [[] [] [] [] [] [] [] []]; intros H; try reflexivity; discriminate H. Qed.

Lemma dropWhile_nil {A : Type} (p : A -> bool) (l : list A) :
  dropWhile p l = [] <-> forallb p l = true.
Proof.
  induction l as [|x l IH]; simpl; [tauto|].
  destruct (p x); simpl; [exact IH | split; discriminate].
Qed.

Lemma forallb_rev_iff {A : Type} (p : A -> bool) (l : list A) :
  forallb p (rev l) = true <-> forallb p l = true.
Proof.
  rewrite !forallb_forall. split; intros H x Hx; apply H;
    [now apply in_rev in Hx | now apply in_rev].
Qed.

Lemma str_nil (l : list ascii) : str l = "" <-> l = [].
Proof. destruct l; simpl; split; congruence. Qed.

Lemma cleanPath_empty (m : string) :
  cleanPath m = "" <-> forallb is_trailing_punct (chars m) = true.
Proof.
  unfold cleanPath. rewrite str_nil. split.
  - intros H. apply forallb_rev_iff, dropWhile_nil.
    apply (f_equal (@rev ascii)) in H. now rewrite rev_involutive in H.
  - intros H. apply forallb_rev_iff, dropWhile_nil in H. now rewrite H.
Qed.

(** Every match is a non-empty run of characters of the class. *)
Lemma exec_loop_runs (text : list ascii) (cur : option (list ascii)) (m : string) :
  (forall run, cur = Some run -> forallb is_ref_char run = true) ->
  In m (exec_loop cur text) ->
  m <> "" /\ forallb is_ref_char (chars m) = true.
Proof.
  assert (Hflush : forall cur,
             (forall run, cur = Some run -> forallb is_ref_char run = true) ->
             In m (flush cur) -> m <> "" /\ forallb is_ref_char (chars m) = true).
  { intros [[|c run]|] Hc Hin; cbn [flush In] in Hin; try contradiction.
    destruct Hin as [<- | []]. split.
    - intros E. apply str_nil in E. apply (f_equal (@length ascii)) in E.
      rewrite length_rev in E. discriminate E.
    - unfold chars, str. rewrite list_ascii_of_string_of_list_ascii.
      apply forallb_rev_iff. now apply Hc. }
  revert cur. induction text as [|c text IH]; intros cur Hcur Hin; simpl in Hin.
  - now apply Hflush with cur.
  - destruct cur as [run|].
    + destruct (is_ref_char c) eqn:Ec.
      * apply IH in Hin; [exact Hin|]. intros run' E. injection E as <-.
        simpl. rewrite Ec. now apply Hcur.
      * apply in_app_iff in Hin as [Hin | Hin]; [now apply Hflush with (Some run)|].
        apply IH in Hin; [exact Hin|]. intros run' E.
        destruct (is_at c); [injection E as <-; reflexivity | discriminate E].
    + apply IH in Hin; [exact Hin|]. intros run' E.
      destruct (is_at c); [injection E as <-; reflexivity | discriminate E].
Qed.

Lemma forallb_ext_in {A : Type} (p q : A -> bool) (l : list A) :
  (forall x, In x l -> p x = q x) -> forallb p l = forallb q l.
Proof.
  induction l as [|x l IH]; intros H; simpl; [reflexivity|].
  rewrite (H x (or_introl eq_refl)), IH; [reflexivity|].
  intros y Hy. apply H. now right.
Qed.

(** C7 (amended).  For every input text, [_extractFileReferences]
    returns a duplicate-free sequence holding exactly the matches with
    their trailing punctuation stripped, each at the place of its first
    occurrence; the result is empty when the text has no [@].  A token
    is empty exactly when some mention consists of dots only; the caller's
    filter [ref.length > 0] removes it, so every reference that goes on to
    resolution is non-empty. *)
Theorem extractFileReferences_first_occurrence (text : string) :
  let cleaned := map cleanPath (exec_all text) in
  NoDup (_extractFileReferences text)
  /\ (forall tok, In tok (_extractFileReferences text) <-> In tok cleaned)
  /\ (forall l1 tok l2,
         _extractFileReferences text = (l1 ++ tok :: l2)%list ->
         exists m1 m2, cleaned = (m1 ++ tok :: m2)%list /\ ~ In tok m1
                       /\ forall y, In y l1 <-> In y m1)
  /\ (In "" (_extractFileReferences text)
      <-> exists m, In m (exec_all text) /\ forallb is_dot (chars m) = true)
  /\ (forall tok, In tok (fileReferences text) ->
                  tok <> "" /\ In tok (_extractFileReferences text))
  /\ (~ In "@"%char (chars text) -> _extractFileReferences text = []).
Proof.
  intros cleaned. unfold _extractFileReferences.
  split; [apply NoDup_fold_Set_add; constructor|].
  split; [|split; [|split; [|split]]].
  - intros tok. rewrite In_fold_Set_add. simpl. tauto.
  - intros l1 tok l2 E. rewrite fold_Set_add_map in E.
    destruct (fold_Set_add_order _ [] (NoDup_nil _) _ _ _ E)
      as [(a2 & Hnil) | (_ & m1 & m2 & Hx & Hm1 & Hl1)].
    + now destruct l1.
    + exists m1, m2. split; [exact Hx|]. split; [exact Hm1|].
      intros y. rewrite Hl1. simpl. tauto.
  - rewrite In_fold_Set_add, in_map_iff. simpl.
    assert (Hdots : forall m, In m (exec_all text) ->
              forallb is_trailing_punct (chars m) = forallb is_dot (chars m)).
    { intros m Hm. apply exec_loop_runs in Hm as [_ Hm]; [|discriminate].
      apply forallb_ext_in. intros x Hx. apply punct_of_ref_char.
      rewrite forallb_forall in Hm. now apply Hm. }
    split.
    + intros [[] | (m & E & Hm)]. exists m. split; [exact Hm|].
      rewrite <- Hdots by exact Hm. now apply cleanPath_empty.
    + intros (m & Hm & Hd). right. exists m. split; [|exact Hm].
      apply cleanPath_empty. now rewrite Hdots.
  - intros tok H. unfold fileReferences in H. apply filter_In in H as [Hin H].
    split; [|exact Hin]. unfold nonempty in H. intros ->. discriminate H.
  - intros H. unfold exec_all. now rewrite exec_loop_no_at.
Qed.

(** C7 (as stated) fails: a mention made of a dot alone is stripped to
    the empty string, which is returned as a token. *)
Lemma extractFileReferences_empty_token :
  _extractFileReferences "@." = [""]
  /\ In "" (_extractFileReferences "see @... and @x..,")
  /\ fileReferences "see @... and @x..," = ["x"].
Proof. repeat split; vm_compute; auto. Qed.
End Extraction.

(** * Context assembly *)

Section Assembly.
Import JS Path ChatPanel.

Lemma Promise_all_rejects {A : Type} (ps : list (result A)) (m : string) :
  In (Throw m) ps -> exists m', Promise_all ps = Throw m' /\ In (Throw m') ps.
Proof.
  induction ps as [|p ps IH]; intros H; [contradiction|].
  destruct p as [a | m0].
  - destruct H as [H | H]; [discriminate|].
    destruct (IH H) as (m' & E & Hin). exists m'. simpl. rewrite E. auto.
  - exists m0. simpl. auto.
Qed.

Lemma Promise_all_fulfils {A B : Type} (f : A -> result B) (xs : list A) :
  (forall x, In x xs -> exists b, f x = Ok b) ->
  exists bs, Promise_all (map f xs) = Ok bs /\ map f xs = map Ok bs.
Proof.
  induction xs as [|x xs IH]; intros H; simpl.
  - now exists [].
  - destruct (H x (or_introl eq_refl)) as (b & Eb).
    destruct IH as (bs & E & Hm); [intros y Hy; apply H; now right|].
    exists (b :: bs). rewrite Eb, E. simpl. now rewrite Hm.
Qed.

Lemma readOne_Throw (w : World) (filePath m : string) :
  readOne w filePath = Throw m <-> _readFileContent w filePath = Throw m.
Proof.
  unfold readOne. destruct (_readFileContent w filePath); split; congruence.
Qed.

(** When every file reads, the prompt is the text followed by one block
    per file of [allFiles], in that order. *)
Lemma enhancedPrompt_all_read (w : World) (text : string)
      (attachedFiles : list string) :
  (forall f, In f (allFiles w text attachedFiles) ->
             exists c, _readFileContent w f = Ok c) ->
  exists contents,
    enhancedPrompt w text attachedFiles = Ok (buildPrompt text contents)
    /\ map fc_path contents
       = map (asRelativePath w) (allFiles w text attachedFiles)
    /\ map (fun c => Ok (fc_content c)) contents
       = map (_readFileContent w) (allFiles w text attachedFiles).
Proof.
  intros H. unfold enhancedPrompt.
  destruct (Promise_all_fulfils (readOne w) (allFiles w text attachedFiles))
    as (bs & E & Hm).
  { intros x Hx. destruct (H x Hx) as (c & Ec). unfold readOne. rewrite Ec. eauto. }
  rewrite E. exists bs. split; [reflexivity|].
  clear E. revert bs Hm.
  induction (allFiles w text attachedFiles) as [|f fs IH]; intros bs Hm.
  - now destruct bs.
  - destruct bs as [|b bs]; [discriminate|]. simpl in Hm.
    injection Hm as Hb Hm.
    assert (Hf : In f (f :: fs)) by now left.
    destruct (H f Hf) as (c & Ec).
    unfold readOne in Hb. rewrite Ec in Hb. injection Hb as <-.
    destruct (IH (fun x Hx => H x (or_intror Hx)) bs Hm) as [IH1 IH2].
    simpl. now rewrite IH1, IH2, Ec.
Qed.

(** C2 (amended).  For every prompt, attachment list and mention set in
    which at least one file of the assembled set fails to read, the whole
    assembly is given up, whether or not other files read: no prompt is
    built, and the handler posts the message [Error: ] followed by the
    message of a failed read. *)
Theorem handleChatMessage_read_failure_aborts
        (w : World) (text : string) (attachedFiles : list string)
        (filePath m : string) :
  In filePath (allFiles w text attachedFiles) ->
  _readFileContent w filePath = Throw m ->
  exists failed m',
    In failed (allFiles w text attachedFiles)
    /\ _readFileContent w failed = Throw m'
    /\ enhancedPrompt w text attachedFiles = Throw m'
    /\ _handleChatMessage w text attachedFiles = error ("Error: " ++ m').
Proof.
  intros Hin Hread.
  assert (H : In (Throw m) (map (readOne w) (allFiles w text attachedFiles))).
  { apply in_map_iff. exists filePath. split; [now apply readOne_Throw | exact Hin]. }
  apply Promise_all_rejects in H as (m' & E & Hm').
  apply in_map_iff in Hm' as (failed & Hf & Hfin).
  exists failed, m'. split; [exact Hfin|]. split; [now apply readOne_Throw|].
  unfold _handleChatMessage, enhancedPrompt. now rewrite E.
Qed.

(** [/ws/a.ts] reads, [/ws/b.ts] does not: the message is abandoned. *)
Lemma handleChatMessage_read_failure_witness :
  _readFileContent Fixture.ws_ab "/ws/a.ts" = Ok "let a = 1;"
  /\ exists failed m',
      In failed (allFiles Fixture.ws_ab "hi" ["/ws/a.ts"; "/ws/b.ts"])
      /\ _readFileContent Fixture.ws_ab failed = Throw m'
      /\ enhancedPrompt Fixture.ws_ab "hi" ["/ws/a.ts"; "/ws/b.ts"] = Throw m'
      /\ _handleChatMessage Fixture.ws_ab "hi" ["/ws/a.ts"; "/ws/b.ts"]
         = error ("Error: " ++ m').
Proof.
  split; [reflexivity|].
  apply (handleChatMessage_read_failure_aborts
           Fixture.ws_ab "hi" ["/ws/a.ts"; "/ws/b.ts"]
           "/ws/b.ts" "cannot open /ws/b.ts").
  - vm_compute. auto.
  - reflexivity.
Defined.

(** C2 (as stated) fails: [a.ts] reads and [b.ts] does not; no block with
    the prompt and [a.ts] is produced, an error message is posted. *)
Lemma handleChatMessage_no_partial_block :
  let attached := ["/ws/a.ts"; "/ws/b.ts"] in
  allFiles Fixture.ws_ab "hi" attached = attached
  /\ _readFileContent Fixture.ws_ab "/ws/a.ts" = Ok "let a = 1;"
  /\ _readFileContent Fixture.ws_ab "/ws/b.ts" = Throw "cannot open /ws/b.ts"
  /\ enhancedPrompt Fixture.ws_ab "hi" attached = Throw "cannot open /ws/b.ts"
  /\ _handleChatMessage Fixture.ws_ab "hi" attached
     = error "Error: cannot open /ws/b.ts".
Proof. cbv zeta. repeat split; vm_compute; reflexivity. Qed.

(** The file set holds no string twice, and holds exactly the attached
    and the resolved paths. *)
Lemma allFiles_distinct_strings (w : World) (text : string)
      (attachedFiles : list string) :
  NoDup (allFiles w text attachedFiles)
  /\ forall f, In f (allFiles w text attachedFiles)
               <-> In f attachedFiles \/ In f (resolvedFiles w text).
Proof.
  unfold allFiles. split; [apply Set_of_NoDup|].
  intros f. now rewrite In_Set_of, in_app_iff.
Qed.

(** C3, at the failing input.  The picker attaches the relative path
    [a.ts] and writes the mention [@a.ts], which resolves to [/ws/a.ts]:
    both spellings stay in the file set, both denote [/ws/a.ts], and the
    prompt carries the file twice. *)
Theorem allFiles_keeps_both_spellings :
  let block := fileBlock {| fc_path := "a.ts"; fc_content := "let a = 1;" |} in
  resolvedFiles Fixture.ws_ab "@a.ts" = ["/ws/a.ts"]
  /\ allFiles Fixture.ws_ab "@a.ts" ["a.ts"] = ["a.ts"; "/ws/a.ts"]
  /\ fullPath_of ["/ws"] "a.ts" = Ok "/ws/a.ts"
  /\ fullPath_of ["/ws"] "/ws/a.ts" = Ok "/ws/a.ts"
  /\ enhancedPrompt Fixture.ws_ab "@a.ts" ["a.ts"]
     = Ok ("@a.ts" ++ nl ++ nl ++ "=== Referenced Files ===" ++ nl
           ++ block ++ block).
Proof. cbv zeta. repeat split; vm_compute; reflexivity. Qed.
End Assembly.

(** * Resolution of a reference *)

Section Resolution.
Import JS Path ChatPanel.

Lemma In_truthy (l : list (option string)) (p : string) :
  In p (truthy l) <-> In (Some p) l /\ p <> "".
Proof.
  induction l as [|[s|] l IH]; simpl.
  - tauto.
  - unfold nonempty. destruct (String.eqb_spec s "") as [-> | Hs]; simpl.
    + rewrite IH. split; [tauto|]. intros [[E | H] Hp]; [congruence | tauto].
    + rewrite IH. split.
      * intros [<- | H]; [auto | tauto].
      * intros [[E | H] Hp]; [injection E; auto | tauto].
  - rewrite IH. split; [tauto|]. intros [[E | H] Hp]; [discriminate | tauto].
Qed.

Lemma resolveReference_Some (w : World) (tok p : string) :
  resolveReference w tok = Some p
  <-> exists rest,
      findFiles w ("**/" ++ tok) (Some node_modules_glob) (Some 5%nat)
      = Ok (p :: rest).
Proof.
  unfold resolveReference, _findFilesInWorkspace.
  destruct (findFiles w ("**/" ++ tok) (Some node_modules_glob) (Some 5%nat))
    as [[|f fs] | m]; split;
    try discriminate; try (intros (rest & E); discriminate E).
  - intros E. injection E as ->. now exists fs.
  - intros (rest & E). now injection E as -> _.
Qed.

(** C4 (amended).  For every mention token extracted from the prompt, the
    file the assembler chooses is the first hit of the workspace search
    for the glob of two stars, a slash and the token (the dependency
    folder excluded, five results at most); the token is dropped when
    that search finds nothing or fails.  Workspace folders, file
    existence and relative paths are not consulted: two worlds with the
    same search results resolve every prompt alike.  The choice is not
    that of [FileManager.resolve]. *)
Theorem resolvedFiles_first_search_hit (w : World) (text : string) :
  (forall p, In p (resolvedFiles w text)
             <-> exists tok rest,
                 In tok (_extractFileReferences text) /\ tok <> "" /\ p <> ""
                 /\ findFiles w ("**/" ++ tok) (Some node_modules_glob)
                              (Some 5%nat) = Ok (p :: rest))
  /\ (forall w',
         (forall g e n, findFiles w' g e n = findFiles w g e n) ->
         resolvedFiles w' text = resolvedFiles w text).
Proof.
  split.
  - intros p. unfold resolvedFiles. rewrite In_truthy, in_map_iff. split.
    + intros [(tok & E & Hin) Hp]. apply resolveReference_Some in E as (rest & E).
      unfold fileReferences in Hin. apply filter_In in Hin as [Hin Hne].
      exists tok, rest. repeat split; try assumption.
      intros ->. discriminate Hne.
    + intros (tok & rest & Hin & Hne & Hp & E). split; [|exact Hp].
      exists tok. split; [apply resolveReference_Some; now exists rest|].
      unfold fileReferences. apply filter_In. split; [exact Hin|].
      unfold nonempty. now destruct (String.eqb_spec tok "").
  - intros w' Hsame. unfold resolvedFiles. f_equal. apply map_ext.
    intros tok. unfold resolveReference, _findFilesInWorkspace.
    now rewrite Hsame.
Qed.

(** C4 (as stated) fails: [app.ts] lies in [src]; the assembler picks it
    for the token [app.ts], the resolver of [FileManager] reports the
    token as not found. *)
Lemma assembler_resolution_is_not_resolve :
  resolveReference Fixture.ws_app "app.ts" = Some "/ws/src/app.ts"
  /\ resolvedFiles Fixture.ws_app "look at @app.ts" = ["/ws/src/app.ts"]
  /\ FileManager.resolve Fixture.ws_app "app.ts" = Throw "File not found: app.ts".
Proof. repeat split; vm_compute; reflexivity. Qed.

Lemma find_all_false {A : Type} (f : A -> bool) (l : list A) :
  (forall x, In x l -> f x = false) -> find f l = None.
Proof.
  induction l as [|x l IH]; intros H; simpl; [reflexivity|].
  rewrite (H x (or_introl eq_refl)). apply IH. intros y Hy. apply H. now right.
Qed.

(** C5 (amended).  When the folder joined with the token exists in no
    workspace folder, [resolveFilePath] searches for the token's basename
    and returns the first result whose workspace-relative path is the
    token itself, compared exactly and with letter case; when no result
    has that relative path, a token that differs from one only in letter
    case included, it fails with [File not found: ] and the token. *)
Theorem resolveFilePath_fallback_exact
        (w : World) (folders : list string) (tok : string)
        (files : list string) :
  workspaceFolders w = Some folders ->
  (forall folder, In folder folders -> fs_access w (join folder tok) = false) ->
  findFiles w ("**/" ++ basename tok) None None = Ok files ->
  (forall f, FileManager.resolveFilePath w tok = Ok f
             <-> Array_find (fun file => String.eqb (asRelativePath w file) tok)
                            files = Some f)
  /\ (forall f, FileManager.resolveFilePath w tok = Ok f ->
                In f files /\ asRelativePath w f = tok)
  /\ ((forall f, In f files -> asRelativePath w f <> tok) ->
      FileManager.resolveFilePath w tok = Throw ("File not found: " ++ tok)).
Proof.
  intros Hw Hacc Hfind.
  assert (E : FileManager.resolveFilePath w tok
              = match Array_find
                        (fun file => String.eqb (asRelativePath w file) tok) files with
                | Some exactMatch => Ok exactMatch
                | None => Throw ("File not found: " ++ tok)
                end).
  { unfold FileManager.resolveFilePath. rewrite Hw.
    unfold Array_find at 1. rewrite (find_all_false _ _ Hacc). now rewrite Hfind. }
  rewrite E. unfold Array_find. split; [|split].
  - intros f.
    destruct (find (fun file => String.eqb (asRelativePath w file) tok) files);
      split; congruence.
  - intros f.
    destruct (find (fun file => String.eqb (asRelativePath w file) tok) files)
      as [g|] eqn:Eg; [|discriminate].
    intros H. injection H as <-. apply find_some in Eg as [Hin Heq].
    split; [exact Hin | now apply String.eqb_eq].
  - intros Hnone. rewrite find_all_false; [reflexivity|].
    intros f Hf. apply String.eqb_neq. now apply Hnone.
Qed.

(** No file [/ws/SRC/app.ts]; the search finds [/ws/src/app.ts] only. *)
Lemma resolveFilePath_fallback_witness :
  FileManager.resolveFilePath Fixture.ws_app "SRC/app.ts"
  = Throw "File not found: SRC/app.ts".
Proof.
  apply (resolveFilePath_fallback_exact
           Fixture.ws_app ["/ws"] "SRC/app.ts" ["/ws/src/app.ts"]).
  - reflexivity.
  - intros folder [<- | []]. reflexivity.
  - reflexivity.
  - intros f [<- | []]. vm_compute. discriminate.
Defined.

(** C5 (as stated) fails: the only search result has the relative path
    [src/app.ts], which equals the token [SRC/app.ts] up to letter case,
    yet resolution fails. *)
Lemma resolveFilePath_is_case_sensitive :
  fs_access Fixture.ws_app (join "/ws" "SRC/app.ts") = false
  /\ findFiles Fixture.ws_app ("**/" ++ basename "SRC/app.ts") None None
     = Ok ["/ws/src/app.ts"]
  /\ toLowerCase (asRelativePath Fixture.ws_app "/ws/src/app.ts")
     = toLowerCase "SRC/app.ts"
  /\ FileManager.resolveFilePath Fixture.ws_app "SRC/app.ts"
     = Throw "File not found: SRC/app.ts".
Proof. repeat split; vm_compute; reflexivity. Qed.
End Resolution.

(** * Language tags *)

Section LanguageTags.
Import JS Path ChatPanel.

(** The default of [FileManager.getLanguageFromFile]. *)
Lemma getLanguageFromFile_default (filePath : string) :
  lookup (toLowerCase (extname filePath)) FileManager.languageMap = None ->
  FileManager.getLanguageFromFile filePath = "text".
Proof. unfold FileManager.getLanguageFromFile. now intros ->. Qed.

(** C6 (amended).  For every file of the assembled set whose extension is
    absent from the lookup table of the chat panel, the language tag
    written into its block is the extension without its dot, in upper
    case (the empty string when the file has no extension); the string
    [text] is the default of [FileManager.getLanguageFromFile] only,
    which the serialisation does not call. *)
Theorem getFileLanguage_unknown_extension (file : FileContent) :
  lookup (toLowerCase (extname (fc_path file))) langMap = None ->
  let tag := toUpperCase (substring1 (toLowerCase (extname (fc_path file)))) in
  _getFileLanguage (fc_path file) = tag
  /\ tag = toUpperCase (substring1 (extname (fc_path file)))
  /\ (extname (fc_path file) = "" -> tag = "")
  /\ fileBlock file
     = nl ++ "// File: " ++ fc_path file ++ nl
       ++ "// Language: " ++ tag ++ nl
       ++ fence ++ nl ++ fc_content file ++ nl ++ fence ++ nl.
Proof.
  intros H tag. unfold fileBlock, _getFileLanguage. rewrite H. cbn [or_else].
  fold tag. split; [reflexivity|]. split; [|split; [|reflexivity]].
  - unfold tag. now rewrite substring1_toLowerCase, toUpperCase_toLowerCase.
  - intros E. unfold tag. now rewrite E.
Qed.

(** [.py] is not a key of [langMap]. *)
Lemma getFileLanguage_unknown_extension_witness :
  _getFileLanguage "main.py" = "PY".
Proof.
  apply (getFileLanguage_unknown_extension
           {| fc_path := "main.py"; fc_content := "print(1)" |}).
  reflexivity.
Defined.

(** C6 (as stated) fails: [.py] is not in the table of the chat panel,
    and the block of [main.py] is tagged [PY], not [text]. *)
Lemma getFileLanguage_is_not_text :
  lookup (toLowerCase (extname "main.py")) langMap = None
  /\ _getFileLanguage "main.py" = "PY"
  /\ _getFileLanguage "main.py" <> "text"
  /\ _getFileLanguage "README" = ""
  /\ enhancedPrompt Fixture.ws_app "" ["/ws/main.py"]
     = Ok (nl ++ nl ++ "=== Referenced Files ===" ++ nl
           ++ nl ++ "// File: main.py" ++ nl ++ "// Language: PY" ++ nl
           ++ fence ++ nl ++ "print(1)" ++ nl ++ fence ++ nl).
Proof.
  repeat split; try (vm_compute; reflexivity).
  vm_compute. intros H. discriminate H.
Qed.
End LanguageTags.

(** * Reading files *)

Section Reading.
Import JS Path FileManager.

Lemma includes_intro (pre sub post s : string) :
  s = pre ++ sub ++ post -> includes s sub = true.
Proof. intros ->. apply includes_append. Qed.

Lemma getImageMetadata_contains (w : World) (p : string) :
  includes (getImageMetadata w p) "Image:" = true
  /\ includes (getImageMetadata w p) (imageType p) = true
  /\ includes (getImageMetadata w p) (basename p) = true
  /\ includes (getImageMetadata w p) p = true.
Proof.
  unfold getImageMetadata.
  destruct (fs_statSync w p) as [stats | m]; unfold fullSummary, reducedSummary;
    (split; [|split; [|split]]).
  - now apply (includes_intro "[" _ (" " ++ basename p ++ "]" ++ nl ++ "Type: "
      ++ imageType p ++ nl ++ "Size: " ++ formatFileSize (size stats) ++ nl
      ++ "Path: " ++ p ++ nl ++ "Modified: " ++ mtime_toLocaleDateString stats
      ++ nl ++ nl ++ "This is an image file. I can see the file metadata but cannot directly analyze the image content. If you need image analysis, please describe what you'd like me to help you with regarding this image.")).
  - eapply (includes_intro ("[Image: " ++ basename p ++ "]" ++ nl ++ "Type: ")).
    rewrite !append_assoc. reflexivity.
  - eapply (includes_intro "[Image: "). reflexivity.
  - eapply (includes_intro ("[Image: " ++ basename p ++ "]" ++ nl ++ "Type: "
      ++ imageType p ++ nl ++ "Size: " ++ formatFileSize (size stats) ++ nl
      ++ "Path: ")).
    rewrite !append_assoc. reflexivity.
  - now apply (includes_intro "[" _ (" " ++ basename p ++ "]" ++ nl ++ "Type: "
      ++ imageType p ++ nl ++ "Path: " ++ p ++ nl ++ nl
      ++ "This is an image file. I can reference it in our conversation but cannot directly analyze the image content.")).
  - eapply (includes_intro ("[Image: " ++ basename p ++ "]" ++ nl ++ "Type: ")).
    rewrite !append_assoc. reflexivity.
  - eapply (includes_intro "[Image: "). reflexivity.
  - eapply (includes_intro ("[Image: " ++ basename p ++ "]" ++ nl ++ "Type: "
      ++ imageType p ++ nl ++ "Path: ")).
    rewrite !append_assoc. reflexivity.
Qed.

Lemma resolve_with_documents (w : World) (docs : string -> result string)
      (filePath : string) :
  resolve (with_documents w docs) filePath = resolve w filePath.
Proof. reflexivity. Qed.

Lemma getImageMetadata_with_documents (w : World)
      (docs : string -> result string) (p : string) :
  getImageMetadata (with_documents w docs) p = getImageMetadata w p.
Proof. reflexivity. Qed.

Lemma readFileContent_image (w : World) (folders : list string)
      (filePath fullPath : string) :
  workspaceFolders w = Some folders ->
  resolve w filePath = Ok fullPath ->
  isImageFile fullPath = true ->
  readFileContent w filePath = Ok (getImageMetadata w fullPath).
Proof.
  intros Hw Hr Hi. unfold readFileContent, readResolved. now rewrite Hw, Hr, Hi.
Qed.

(** C8.  For every path that resolves to a file whose extension is
    [.png] in any letter case (an absolute path resolves to itself),
    [readFileContent] returns the metadata summary: it contains
    [Image:], the extension in upper case, the file's name and its path;
    it is the same whatever the documents hold, so the file's content is
    never returned; and when [statSync] fails it is the reduced summary
    of name, extension and path. *)
Theorem readFileContent_png_summary
        (w : World) (folders : list string) (filePath fullPath : string) :
  workspaceFolders w = Some folders ->
  resolve w filePath = Ok fullPath ->
  toLowerCase (extname fullPath) = ".png" ->
  let summary := getImageMetadata w fullPath in
  readFileContent w filePath = Ok summary
  /\ includes summary "Image:" = true
  /\ imageType fullPath = "PNG"
  /\ includes summary "PNG" = true
  /\ includes summary (basename fullPath) = true
  /\ includes summary fullPath = true
  /\ (forall docs, readFileContent (with_documents w docs) filePath = Ok summary)
  /\ (forall m, fs_statSync w fullPath = Throw m ->
                summary = "[Image: " ++ basename fullPath ++ "]" ++ nl
                          ++ "Type: PNG" ++ nl
                          ++ "Path: " ++ fullPath ++ nl ++ nl
                          ++ "This is an image file. I can reference it in our conversation but cannot directly analyze the image content.").
Proof.
  intros Hw Hr Hext summary.
  assert (Himg : isImageFile fullPath = true).
  { unfold isImageFile. now rewrite Hext. }
  assert (Hty : imageType fullPath = "PNG").
  { unfold imageType. now rewrite (upper_of_lowered_extension _ _ Hext). }
  destruct (getImageMetadata_contains w fullPath) as (C1 & C2 & C3 & C4).
  rewrite Hty in C2.
  split; [now apply readFileContent_image with folders|].
  repeat (split; [assumption|]). split.
  - intros docs. unfold summary.
    rewrite <- (getImageMetadata_with_documents w docs).
    apply readFileContent_image with folders; [exact Hw | | exact Himg].
    now rewrite resolve_with_documents.
  - intros m Hm. unfold summary, getImageMetadata, reducedSummary.
    now rewrite Hm, Hty.
Qed.

(** [logo.png], by its absolute and by its relative path. *)
Lemma readFileContent_png_witness :
  readFileContent Fixture.ws_img "/ws/logo.png"
  = Ok (getImageMetadata Fixture.ws_img "/ws/logo.png")
  /\ readFileContent Fixture.ws_img "logo.png"
     = Ok (getImageMetadata Fixture.ws_img "/ws/logo.png").
Proof.
  split.
  - apply (readFileContent_png_summary Fixture.ws_img ["/ws"]
             "/ws/logo.png" "/ws/logo.png"); reflexivity.
  - apply (readFileContent_png_summary Fixture.ws_img ["/ws"]
             "logo.png" "/ws/logo.png"); reflexivity.
Defined.
End Reading.

(** * File sizes *)

Section Sizes.
Import JS FileManager.
Local Open Scope Z_scope.

Lemma unitIndex_small (bytes : Z) :
  1 <= bytes < 1024 ^ 4 -> 0 <= unitIndex bytes <= 3.
Proof.
  intros [Hlo Hhi]. unfold unitIndex.
  assert (H0 : 0 <= Z.log2 bytes) by apply Z.log2_nonneg.
  assert (H1 : Z.log2 bytes < 40).
  { apply Z.log2_lt_pow2; [lia|]. change (2 ^ 40) with (1024 ^ 4). exact Hhi. }
  split.
  - apply Z.div_pos; lia.
  - assert (Z.log2 bytes / 10 < 4); [|lia].
    apply Z.div_lt_upper_bound; lia.
Qed.

Lemma unitIndex_large (bytes : Z) : 1024 ^ 4 <= bytes -> 4 <= unitIndex bytes.
Proof.
  intros H. unfold unitIndex.
  assert (H1 : 40 <= Z.log2 bytes).
  { apply Z.log2_le_pow2; [|change (2 ^ 40) with (1024 ^ 4); exact H].
    assert (0 < 1024 ^ 4) by reflexivity. lia. }
  apply Z.div_le_lower_bound; lia.
Qed.

(** C9.  [formatFileSize] prints [0 Bytes] for 0; for a byte count from 1
    up to but not including 1024^4 it prints the scaled number, a space
    and one of the four units; for every byte count of 1024^4 or more the
    index is 4 or more, the unit table has no entry there, and the string
    ends in [undefined]. *)
Theorem formatFileSize_units (bytes : Z) :
  (bytes = 0 -> formatFileSize bytes = "0 Bytes"%string)
  /\ (1 <= bytes < 1024 ^ 4 ->
      exists u, In u sizes
                /\ nth_error sizes (Z.to_nat (unitIndex bytes)) = Some u
                /\ formatFileSize bytes
                   = (showHundredths (hundredths bytes (unitIndex bytes))
                      ++ " " ++ u)%string)
  /\ (1024 ^ 4 <= bytes ->
      4 <= unitIndex bytes
      /\ nth_error sizes (Z.to_nat (unitIndex bytes)) = None
      /\ formatFileSize bytes
         = (showHundredths (hundredths bytes (unitIndex bytes))
            ++ " undefined")%string).
Proof.
  split; [intros ->; reflexivity|]. split.
  - intros Hb. pose proof (unitIndex_small bytes Hb) as Hi.
    unfold formatFileSize, unitName.
    destruct (Z.eqb_spec bytes 0) as [E | _]; [lia|].
    cbv zeta.
    assert (Hn : (Z.to_nat (unitIndex bytes) < 4)%nat) by lia.
    destruct (nth_error sizes (Z.to_nat (unitIndex bytes))) as [u|] eqn:Eu.
    + exists u. split; [now apply nth_error_In in Eu|]. now split.
    + apply nth_error_None in Eu. simpl in Eu. lia.
  - intros Hb. pose proof (unitIndex_large bytes Hb) as Hi.
    assert (Hpos : 0 < 1024 ^ 4) by reflexivity.
    assert (Hnone : nth_error sizes (Z.to_nat (unitIndex bytes)) = None).
    { apply nth_error_None. simpl. lia. }
    split; [exact Hi|]. split; [exact Hnone|].
    unfold formatFileSize, unitName.
    destruct (Z.eqb_spec bytes 0) as [E | _]; [lia|].
    cbv zeta. now rewrite Hnone.
Qed.

(** 0 bytes, 1536 bytes and 1024^4 bytes. *)
Lemma formatFileSize_units_witness :
  formatFileSize 0 = "0 Bytes"%string
  /\ (exists u, In u sizes
                /\ nth_error sizes (Z.to_nat (unitIndex 1536)) = Some u
                /\ formatFileSize 1536
                   = (showHundredths (hundredths 1536 (unitIndex 1536))
                      ++ " " ++ u)%string)
  /\ formatFileSize (1024 ^ 4)
     = (showHundredths (hundredths (1024 ^ 4) (unitIndex (1024 ^ 4)))
        ++ " undefined")%string.
Proof.
  split; [now apply (formatFileSize_units 0)|]. split.
  - apply (formatFileSize_units 1536). split; [lia | reflexivity].
  - apply (formatFileSize_units (1024 ^ 4)). apply Z.le_refl.
Defined.
End Sizes.

Example formatFileSize_samples :
  map FileManager.formatFileSize
      [0; 1; 1023; 1024; 1536; 1126; 1048575; 1048576; 1073741824;
       1099511627775; 1099511627776; 5000000000000]%Z
  = ["0 Bytes"; "1 Bytes"; "1023 Bytes"; "1 KB"; "1.5 KB"; "1.1 KB";
     "1024 KB"; "1 MB"; "1 GB"; "1024 GB"; "1 undefined"; "4.55 undefined"].
Proof. vm_compute. reflexivity. Qed.

(** * The two readers *)

Section Readers.
Import JS Path.

(** C10.  For every path whose extension is [.webp] or [.ico] in any
    letter case, the reader of the chat panel takes it for a non-image
    and returns what the document at the full path holds, while the
    reader of [FileManager] takes it for an image and returns the
    metadata summary, whatever the document holds. *)
Theorem readers_disagree_on_webp_ico
        (w : World) (folders : list string)
        (filePath chatPath managerPath : string) :
  workspaceFolders w = Some folders ->
  toLowerCase (extname filePath) = ".webp"
  \/ toLowerCase (extname filePath) = ".ico" ->
  ChatPanel.fullPath_of folders filePath = Ok chatPath ->
  FileManager.resolve w filePath = Ok managerPath ->
  toLowerCase (extname managerPath) = toLowerCase (extname filePath) ->
  ChatPanel._isImageFile filePath = false
  /\ FileManager.isImageFile filePath = true
  /\ ChatPanel._readFileContent w filePath = openTextDocument w chatPath
  /\ FileManager.readFileContent w filePath
     = Ok (FileManager.getImageMetadata w managerPath)
  /\ forall docs,
      ChatPanel._readFileContent (with_documents w docs) filePath
      = docs chatPath
      /\ FileManager.readFileContent (with_documents w docs) filePath
         = Ok (FileManager.getImageMetadata w managerPath).
Proof.
  intros Hw Hext Hc Hm Hsame.
  assert (Hchat : ChatPanel._isImageFile filePath = false).
  { unfold ChatPanel._isImageFile. now destruct Hext as [-> | ->]. }
  assert (Hfm : FileManager.isImageFile filePath = true).
  { unfold FileManager.isImageFile. now destruct Hext as [-> | ->]. }
  assert (Hfm' : FileManager.isImageFile managerPath = true).
  { unfold FileManager.isImageFile in *. now rewrite Hsame. }
  split; [exact Hchat|]. split; [exact Hfm|]. split; [|split].
  - unfold ChatPanel._readFileContent. now rewrite Hw, Hc, Hchat.
  - now apply readFileContent_image with folders.
  - intros docs. split.
    + unfold ChatPanel._readFileContent. cbn [workspaceFolders with_documents].
      now rewrite Hw, Hc, Hchat.
    + rewrite <- (getImageMetadata_with_documents w docs).
      apply readFileContent_image with folders; [exact Hw | | exact Hfm'].
      now rewrite resolve_with_documents.
Qed.

(** [icon.webp] by its absolute path, [favicon.ico] by its relative one. *)
Lemma readers_disagree_witness :
  ChatPanel._readFileContent Fixture.ws_img "/ws/icon.webp" = Ok "RIFF-bytes"
  /\ FileManager.readFileContent Fixture.ws_img "/ws/icon.webp"
     = Ok (FileManager.getImageMetadata Fixture.ws_img "/ws/icon.webp")
  /\ ChatPanel._readFileContent Fixture.ws_img "favicon.ico" = Ok "ICO-bytes"
  /\ FileManager.readFileContent Fixture.ws_img "favicon.ico"
     = Ok (FileManager.getImageMetadata Fixture.ws_img "/ws/favicon.ico").
Proof.
  assert (A := readers_disagree_on_webp_ico Fixture.ws_img ["/ws"]
                 "/ws/icon.webp" "/ws/icon.webp" "/ws/icon.webp"
                 eq_refl (or_introl eq_refl) eq_refl eq_refl eq_refl).
  assert (B := readers_disagree_on_webp_ico Fixture.ws_img ["/ws"]
                 "favicon.ico" "/ws/favicon.ico" "/ws/favicon.ico"
                 eq_refl (or_intror eq_refl) eq_refl eq_refl eq_refl).
  destruct A as (_ & _ & A1 & A2 & _). destruct B as (_ & _ & B1 & B2 & _).
  repeat split; assumption.
Defined.
End Readers.

(** * Extensions of concrete file names *)

Section Extensions.
Import JS Path.

Lemma chars_append (a b : string) : chars (a ++ b) = (chars a ++ chars b)%list.
Proof. induction a as [|x a IH]; simpl; [reflexivity | now rewrite IH]. Qed.

Lemma takeWhile_app {A : Type} (p : A -> bool) (l rest : list A) :
  forallb p l = true -> takeWhile p (l ++ rest) = (l ++ takeWhile p rest)%list.
Proof.
  induction l as [|x l IH]; simpl; [reflexivity|].
  intros H. apply andb_true_iff in H as [Hx Hl]. now rewrite Hx, IH.
Qed.

Lemma dropWhile_app {A : Type} (p : A -> bool) (l rest : list A) :
  forallb p l = true -> dropWhile p (l ++ rest) = dropWhile p rest.
Proof.
  induction l as [|x l IH]; simpl; [reflexivity|].
  intros H. apply andb_true_iff in H as [Hx Hl]. now rewrite Hx, IH.
Qed.

Lemma length_str (l : list ascii) : String.length (str l) = length l.
Proof. induction l as [|x l IH]; simpl; [reflexivity | now rewrite IH]. Qed.

(** A path that ends in a dot and a plain suffix, after a character that
    is not a separator, has that dot and suffix as its extension. *)
Lemma extname_of_suffix (stem : string) (c : ascii) (ext : string) :
  is_slash c = false ->
  ext <> "" ->
  forallb plain (chars ext) = true ->
  extname (stem ++ String c ("." ++ ext)) = "." ++ ext.
Proof.
  intros Hc Hne Hplain.
  assert (Hrev : rev (chars (stem ++ String c ("." ++ ext)))
                 = (rev (chars ext) ++ dot :: c :: rev (chars stem))%list).
  { rewrite chars_append.
    change (chars (String c ("." ++ ext))) with (c :: dot :: chars ext).
    rewrite rev_app_distr. cbn [rev]. rewrite <- !app_assoc. reflexivity. }
  assert (Hall : forall q, (forall x, plain x = true -> q x = true) ->
                           forallb q (rev (chars ext)) = true).
  { intros q Hq. apply forallb_forall. intros x Hx. apply Hq.
    apply in_rev in Hx. rewrite forallb_forall in Hplain. now apply Hplain. }
  assert (Hns : forallb (fun x => negb (is_slash x)) (rev (chars ext)) = true).
  { apply Hall. intros x Hx. unfold plain in Hx. now apply andb_true_iff in Hx. }
  assert (Hnd : forallb (fun x => negb (is_dot x)) (rev (chars ext)) = true).
  { apply Hall. intros x Hx. unfold plain in Hx. now apply andb_true_iff in Hx. }
  assert (Hhead : exists e0 es, rev (chars ext) = e0 :: es).
  { destruct (rev (chars ext)) as [|e0 es] eqn:E; [|eauto].
    exfalso. apply Hne. apply (f_equal (@rev ascii)) in E.
    rewrite rev_involutive in E. simpl in E.
    rewrite <- (string_of_list_ascii_of_string ext). unfold chars in E.
    now rewrite E. }
  destruct Hhead as (e0 & es & He).
  assert (Hrb : rev_last_portion (stem ++ String c ("." ++ ext))
                = (rev (chars ext) ++ dot :: c
                     :: takeWhile (fun x => negb (is_slash x)) (rev (chars stem)))%list).
  { unfold rev_last_portion. rewrite Hrev.
    assert (Hd : dropWhile is_slash
                   (rev (chars ext) ++ dot :: c :: rev (chars stem))
                 = (rev (chars ext) ++ dot :: c :: rev (chars stem))%list).
    { rewrite He in *. cbn [app dropWhile]. simpl in Hns.
      apply andb_true_iff in Hns as [Hs _].
      apply negb_true_iff in Hs. now rewrite Hs. }
    rewrite Hd, takeWhile_app by exact Hns.
    cbn [takeWhile]. now rewrite Hc. }
  unfold extname. rewrite Hrb.
  rewrite dropWhile_app, takeWhile_app by exact Hnd.
  cbn [dropWhile takeWhile]. unfold is_dot at 1 2. rewrite Ascii.eqb_refl.
  cbn [negb]. rewrite app_nil_r.
  match goal with
  | |- (if String.eqb ?s ".." then _ else _) = _ =>
      destruct (String.eqb_spec s "..") as [E | _]
  end.
  - exfalso. apply (f_equal String.length) in E.
    rewrite length_str, length_rev, length_app in E. simpl in E.
    rewrite He in E. simpl in E. lia.
  - rewrite rev_involutive. cbn [str string_of_list_ascii].
    fold (str (chars ext)). unfold str, chars.
    now rewrite string_of_list_ascii_of_string.
Qed.

(** File names such as [logo.webp], [dir/favicon.ico] or [shot.png]. *)
Lemma extname_webp_ico_png (stem : string) (c : ascii) :
  is_slash c = false ->
  extname (stem ++ String c ".webp") = ".webp"
  /\ extname (stem ++ String c ".ico") = ".ico"
  /\ extname (stem ++ String c ".png") = ".png".
Proof.
  intros Hc. repeat split.
  - now apply (extname_of_suffix stem c "webp").
  - now apply (extname_of_suffix stem c "ico").
  - now apply (extname_of_suffix stem c "png").
Qed.
End Extensions.

(** * Sample evaluations *)

Example extname_samples :
  map Path.extname ["index.html"; "index.coffee.md"; "index."; "index";
                    ".index"; ".index.md"; ".."; "a.b/"; "/ws/.ico"; "..."]
  = [".html"; ".md"; "."; ""; ""; ".md"; ""; ".b"; ""; "."].
Proof. reflexivity. Qed.

Example basename_samples :
  map Path.basename ["/ws/src/app.ts"; "app.ts"; "/"; "a/b/"; ""]
  = ["app.ts"; "app.ts"; ""; "b"; ""].
Proof. reflexivity. Qed.

Example dirname_samples :
  map Path.dirname ["src/app.ts"; "app.ts"; "/a"; "/"; "a//b"; ""; "/a/b/"; "a/b"]
  = ["src"; "."; "/"; "/"; "a/"; "."; "/a"; "a"].
Proof. reflexivity. Qed.

Example join_samples :
  map (fun ab => Path.join (fst ab) (snd ab))
      [("/ws", "a.ts"); ("/ws", "src/../b.png"); ("/ws", ".."); ("/ws/", "x/");
       ("/ws", "SRC/app.ts"); ("a", "../../b")]
  = ["/ws/a.ts"; "/ws/b.png"; "/"; "/ws/x/"; "/ws/SRC/app.ts"; "../b"].
Proof. reflexivity. Qed.

Example extract_samples :
  map ChatPanel._extractFileReferences
      ["fix @a.ts and @a.ts again"; "@utils.js?"; "no mention here";
       "@@a @b/c.tsx! mail a@b.c"; "@"; "@a@b"]
  = [["a.ts"]; ["utils.js"]; []; ["a"; "b/c.tsx"; "b.c"]; []; ["a"; "b"]].
Proof. vm_compute. reflexivity. Qed.

Example getFileLanguage_samples :
  map ChatPanel._getFileLanguage ["a.TS"; "main.py"; "README"; "notes.md"]
  = ["TypeScript"; "PY"; ""; "MD"]
  /\ map FileManager.getLanguageFromFile ["a.TS"; "main.py"; "README"; "x.zig"]
     = ["typescript"; "python"; "text"; "text"].
Proof. split; vm_compute; reflexivity. Qed.

Example chat_reader_on_png :
  ChatPanel._readFileContent Fixture.ws_img "/ws/logo.png"
  = Ok "[Image file: logo.png]".
Proof. reflexivity. Qed.


(** * Further properties of the chat panel *)

Section MentionShape.
Import JS Path ChatPanel.

Lemma chars_str (l : list ascii) : chars (str l) = l.
Proof. unfold chars, str. apply list_ascii_of_string_of_list_ascii. Qed.

Lemma str_chars (s : string) : str (chars s) = s.
Proof. unfold chars, str. apply string_of_list_ascii_of_string. Qed.


Lemma dropWhile_incl {A : Type} (p : A -> bool) (l : list A) (x : A) :
  In x (dropWhile p l) -> In x l.
Proof.
  induction l as [|y l IH]; simpl; [tauto|].
  destruct (p y); [intros H; right; now apply IH | tauto].
Qed.

Lemma dropWhile_head {A : Type} (p : A -> bool) (l r : list A) (x : A) :
  dropWhile p l = x :: r -> p x = false.
Proof.
  induction l as [|y l IH]; simpl; [discriminate|].
  destruct (p y) eqn:E; [exact IH|]. intros H. injection H as <- _. exact E.
Qed.

Lemma takeWhile_dropWhile {A : Type} (p : A -> bool) (l : list A) :
  (takeWhile p l ++ dropWhile p l)%list = l.
Proof.
  induction l as [|y l IH]; simpl; [reflexivity|].
  destruct (p y); simpl; [now rewrite IH | reflexivity].
Qed.

Lemma In_extractFileReferences (text tok : string) :
  In tok (_extractFileReferences text)
  <-> exists m, In m (exec_all text) /\ tok = cleanPath m.
Proof.
  unfold _extractFileReferences. rewrite In_fold_Set_add, in_map_iff. simpl.
  split.
  - intros [[] | (m & E & Hm)]. exists m. auto.
  - intros (m & Hm & E). right. exists m. auto.
Qed.

Lemma cleanPath_shape (m : string) :
  forallb is_ref_char (chars m) = true ->
  forallb is_ref_char (chars (cleanPath m)) = true /\ endsClean (cleanPath m).
Proof.
  intros Hm. unfold cleanPath, endsClean. rewrite chars_str, rev_involutive. split.
  - apply forallb_forall. intros x Hx. apply in_rev, dropWhile_incl, in_rev in Hx.
    rewrite forallb_forall in Hm. now apply Hm.
  - destruct (dropWhile is_trailing_punct (rev (chars m))) as [|c r] eqn:E; [exact I|].
    now apply dropWhile_head in E.
Qed.

(** X1.  Every token [_extractFileReferences] returns is made of
    characters of the class [[a-zA-Z0-9./_-]] only, so it holds no [@] and
    no white space, and it does not end in any of [. , ; ! ?]. *)
Theorem extracted_tokens_shape (text : string) :
  Forall (fun tok => forallb is_ref_char (chars tok) = true /\ endsClean tok)
         (_extractFileReferences text).
Proof.
  apply Forall_forall. intros tok Hin.
  apply In_extractFileReferences in Hin as (m & Hm & ->).
  apply cleanPath_shape.
  now apply exec_loop_runs in Hm as [_ Hm].
Qed.

Lemma exec_loop_run (p run rest : list ascii) :
  forallb is_ref_char p = true ->
  match rest with
  | [] => True
  | sep :: _ => is_ref_char sep = false
  end ->
  exec_loop (Some run) (p ++ rest)
  = (flush (Some (rev p ++ run))
     ++ match rest with
        | [] => []
        | sep :: post => exec_loop (if is_at sep then Some [] else None) post
        end)%list.
Proof.
  revert run. induction p as [|c p IH]; intros run Hp Hrest.
  - destruct rest as [|sep post]; simpl.
    + now rewrite app_nil_r.
    + now rewrite Hrest.
  - simpl in Hp. apply andb_true_iff in Hp as [Hc Hp].
    cbn [app exec_loop]. rewrite Hc, (IH (c :: run) Hp Hrest).
    cbn [rev]. now rewrite <- app_assoc.
Qed.

Lemma exec_loop_after_at (pre rest : list ascii) (cur : option (list ascii))
      (m : string) :
  In m (exec_loop (Some []) rest) ->
  In m (exec_loop cur (pre ++ "@"%char :: rest)).
Proof.
  intros Hm. revert cur. induction pre as [|c pre IH]; intros cur.
  - cbn [app exec_loop]. destruct cur as [run|]; [|exact Hm].
    change (is_ref_char "@"%char) with false. cbn iota.
    apply in_or_app. right. exact Hm.
  - cbn [app exec_loop]. destruct cur as [run|]; [|apply IH].
    destruct (is_ref_char c); [apply IH|]. apply in_or_app. right. apply IH.
Qed.

Lemma cleanPath_id (p : string) : endsClean p -> cleanPath p = p.
Proof.
  unfold endsClean, cleanPath. intros H.
  destruct (rev (chars p)) as [|c r] eqn:E.
  - simpl. apply (f_equal (@rev ascii)) in E. rewrite rev_involutive in E.
    rewrite <- (str_chars p). now rewrite E.
  - cbn [dropWhile]. rewrite H, <- E, rev_involutive. apply str_chars.
Qed.

Lemma mention_found (pre p tail : string) :
  p <> "" ->
  forallb is_ref_char (chars p) = true ->
  match chars tail with
  | [] => True
  | sep :: _ => is_ref_char sep = false
  end ->
  In (cleanPath p) (_extractFileReferences (pre ++ "@" ++ p ++ tail))
  /\ (endsClean p -> In p (_extractFileReferences (pre ++ "@" ++ p ++ tail))).
Proof.
  intros Hne Hp Htail.
  assert (H : In (cleanPath p) (_extractFileReferences (pre ++ "@" ++ p ++ tail))).
  { apply In_extractFileReferences. exists p. split; [|reflexivity].
    unfold exec_all. rewrite !chars_append.
    change (chars "@") with ["@"%char]. cbn [app].
    apply exec_loop_after_at.
    rewrite (exec_loop_run (chars p) [] (chars tail) Hp Htail).
    apply in_or_app. left. rewrite app_nil_r.
    destruct (rev (chars p)) as [|c r] eqn:E.
    - exfalso. apply Hne. apply (f_equal (@rev ascii)) in E.
      rewrite rev_involutive in E. rewrite <- (str_chars p). now rewrite E.
    - cbn [flush]. rewrite <- E, rev_involutive, str_chars. now left. }
  split; [exact H|]. intros Hc. now rewrite (cleanPath_id p Hc) in H.
Qed.

(** X2.  A mention is found wherever it stands: when the text holds an
    [@] followed by a non-empty run [p] of class characters and that run is
    followed by the end of the text or by a character outside the class,
    then [p] without its trailing dots is among the extracted references,
    and [p] itself when it does not end in a dot. *)
Theorem mention_is_extracted (pre p tail : string) :
  p <> "" ->
  forallb is_ref_char (chars p) = true ->
  match chars tail with
  | [] => True
  | sep :: _ => is_ref_char sep = false
  end ->
  In (cleanPath p) (_extractFileReferences (pre ++ "@" ++ p ++ tail))
  /\ (endsClean p -> In p (_extractFileReferences (pre ++ "@" ++ p ++ tail))).
Proof. apply mention_found. Qed.

(** [@src/app.ts] in the middle of a sentence. *)
Lemma mention_is_extracted_witness :
  In "src/app.ts" (_extractFileReferences ("see " ++ "@" ++ "src/app.ts" ++ ", please")).
Proof.
  apply (mention_is_extracted "see " "src/app.ts" ", please");
    [discriminate | reflexivity | reflexivity | reflexivity].
Defined.
End MentionShape.

Section TagsAndImages.
Import JS Path ChatPanel.

Lemma upper_char_not_lower (c : ascii) : is_lower (upper_char c) = false.
Proof. destruct c as [[] [] [] [] [] [] [] []]; reflexivity. Qed.

Lemma toUpperCase_no_lower (s : string) :
  forallb (fun c => negb (is_lower c)) (chars (toUpperCase s)) = true.
Proof.
  induction s as [|c s IH]; [reflexivity|].
  unfold toUpperCase, chars in *. simpl.
  rewrite upper_char_not_lower. exact IH.
Qed.

Lemma lookup_In (key : string) (obj : list (string * string)) (v : string) :
  lookup key obj = Some v -> In (key, v) obj.
Proof.
  induction obj as [|[k u] obj IH]; simpl; [discriminate|].
  destruct (String.eqb_spec k key) as [-> | _].
  - intros H. injection H as ->. now left.
  - intros H. right. now apply IH.
Qed.

Lemma langMap_values (key v : string) :
  lookup key langMap = Some v -> v <> "" /\ v <> "text".
Proof.
  intros H. apply lookup_In in H. simpl in H.
  repeat (destruct H as [H | H]; [injection H as _ <-; split; discriminate|]).
  contradiction.
Qed.

(** X3.  The language tag of [_getFileLanguage] is never the string
    [text]: for an extension of its table it is one of the table's eight
    names, and otherwise it is the extension in upper case, which holds no
    lower-case letter. *)
Theorem getFileLanguage_never_text (filePath : string) :
  _getFileLanguage filePath <> "text"
  /\ ((exists v, lookup (toLowerCase (extname filePath)) langMap = Some v
                 /\ _getFileLanguage filePath = v)
      \/ (lookup (toLowerCase (extname filePath)) langMap = None
          /\ _getFileLanguage filePath
             = toUpperCase (substring1 (extname filePath))
          /\ forallb (fun c => negb (is_lower c))
                     (chars (_getFileLanguage filePath)) = true)).
Proof.
  unfold _getFileLanguage.
  destruct (lookup (toLowerCase (extname filePath)) langMap) as [v|] eqn:E.
  - destruct (langMap_values _ _ E) as [Hne Htext].
    assert (Hv : or_else (Some v) (toUpperCase (substring1 (toLowerCase (extname filePath)))) = v).
    { destruct v; [now elim Hne | reflexivity]. }
    rewrite Hv. split; [exact Htext|]. left. now exists v.
  - cbn [or_else].
    pose proof (toUpperCase_no_lower (substring1 (toLowerCase (extname filePath)))) as Hup.
    split.
    + intros Ht. rewrite Ht in Hup. discriminate Hup.
    + right. split; [reflexivity|]. split; [|exact Hup].
      now rewrite substring1_toLowerCase, toUpperCase_toLowerCase.
Qed.

Lemma chat_images_are_manager_images (filePath : string) :
  _isImageFile filePath = true -> FileManager.isImageFile filePath = true.
Proof.
  unfold _isImageFile, FileManager.isImageFile. rewrite !array_includes_In.
  simpl. intuition.
Qed.

(** X4.  Whatever the chat panel takes for an image, [FileManager] takes
    for an image too; and for such a path the reader of the chat panel
    answers with the placeholder naming the file, whatever the document
    holds, once its full path can be formed. *)
Theorem chat_image_placeholder
        (w : World) (folders : list string) (filePath full : string) :
  workspaceFolders w = Some folders ->
  fullPath_of folders filePath = Ok full ->
  _isImageFile filePath = true ->
  FileManager.isImageFile filePath = true
  /\ forall docs,
      _readFileContent (with_documents w docs) filePath
      = Ok ("[Image file: " ++ basename filePath ++ "]").
Proof.
  intros Hw Hf Hi. split; [now apply chat_images_are_manager_images|].
  intros docs. unfold _readFileContent. cbn [workspaceFolders with_documents].
  now rewrite Hw, Hf, Hi.
Qed.

(** [/ws/logo.png] in the image workspace. *)
Lemma chat_image_placeholder_witness :
  FileManager.isImageFile "/ws/logo.png" = true
  /\ forall docs,
      _readFileContent (with_documents Fixture.ws_img docs) "/ws/logo.png"
      = Ok ("[Image file: " ++ basename "/ws/logo.png" ++ "]").
Proof.
  apply (chat_image_placeholder Fixture.ws_img ["/ws"] "/ws/logo.png" "/ws/logo.png");
    reflexivity.
Defined.
End TagsAndImages.

Section NoWorkspace.
Import JS Path ChatPanel.

Lemma Promise_all_head_throws {A : Type} (m : string) (ps : list (result A)) :
  Promise_all (Throw m :: ps) = Throw m.
Proof. reflexivity. Qed.

(** X5.  With no workspace folder open nothing is read and nothing is
    searched: both readers fail for every path, [_getFileContent] posts
    [Could not read file: ] and the path, [_getWorkspaceFiles] posts
    nothing, the searches of [FileManager] come back empty, its resolver
    fails, and a chat message with at least one file is answered by
    [Error: No workspace folder]. *)
Theorem no_workspace_behaviour (w : World) :
  workspaceFolders w = None ->
  (forall p, _readFileContent w p = Throw "No workspace folder")
  /\ (forall p, _getFileContent w p = contentError ("Could not read file: " ++ p))
  /\ (forall q, _getWorkspaceFiles w q = None)
  /\ (forall text attached,
         allFiles w text attached <> [] ->
         _handleChatMessage w text attached = error "Error: No workspace folder")
  /\ (forall p, FileManager.readFileContent w p = Throw "No workspace folder open")
  /\ (forall p, FileManager.resolveFilePath w p = Throw "No workspace folder")
  /\ (forall lc q limit, FileManager.getWorkspaceFiles lc w q limit = [])
  /\ FileManager.getRecentFiles w = [].
Proof.
  intros Hw.
  assert (Hread : forall p, _readFileContent w p = Throw "No workspace folder").
  { intros p. unfold _readFileContent. now rewrite Hw. }
  split; [exact Hread|]. split; [|split; [|split; [|split; [|split; [|split]]]]].
  - intros p. unfold _getFileContent. now rewrite Hread.
  - intros q. unfold _getWorkspaceFiles. now rewrite Hw.
  - intros text attached Hne. unfold _handleChatMessage, enhancedPrompt.
    destruct (allFiles w text attached) as [|f fs]; [now elim Hne|].
    cbn [map]. unfold readOne at 1. now rewrite Hread.
  - intros p. unfold FileManager.readFileContent. now rewrite Hw.
  - intros p. unfold FileManager.resolveFilePath. now rewrite Hw.
  - intros lc q limit. unfold FileManager.getWorkspaceFiles. now rewrite Hw.
  - unfold FileManager.getRecentFiles. now rewrite Hw.
Qed.

(** An attachment sent while no folder is open. *)
Lemma no_workspace_witness :
  _handleChatMessage Fixture.noFolder "explain" ["a.ts"]
  = error "Error: No workspace folder".
Proof.
  apply (no_workspace_behaviour Fixture.noFolder eq_refl).
  vm_compute. discriminate.
Defined.
End NoWorkspace.

Section Suggestions.
Import JS Path ChatPanel RankOrder.

Lemma rankFiles_perm (query : string) (l : list FileEntry) :
  Permutation l (rankFiles query l).
Proof. apply Array_sort_perm. Qed.

Lemma rankFiles_sorted (query : string) (l : list FileEntry) :
  StronglySorted (notAfter (normalizeQuery query)) (rankFiles query l).
Proof.
  unfold rankFiles. set (nq := normalizeQuery query).
  apply StronglySorted_weaken with (R := cmp_le (compareFn nq)).
  - intros a b. apply compareFn_le.
  - apply Array_sort_sorted.
    + intros a b c Hab Hbc. apply compareFn_le.
      apply notAfter_trans with b; now apply compareFn_le.
    + intros a b. destruct (notAfter_total nq a b) as [H | H];
        [left | right]; now apply compareFn_le.
Qed.

Lemma In_firstn {A : Type} (n : nat) (l : list A) (x : A) :
  In x (firstn n l) -> In x l.
Proof.
  intros H. rewrite <- (firstn_skipn n l). apply in_or_app. now left.
Qed.

Lemma StronglySorted_firstn {A : Type} (R : A -> A -> Prop) (n : nat) (l : list A) :
  StronglySorted R l -> StronglySorted R (firstn n l).
Proof.
  intros H. revert n. induction H as [|x l Hs IH Hx]; intros [|n]; simpl;
    try constructor.
  - apply IH.
  - apply Forall_forall. intros y Hy. rewrite Forall_forall in Hx.
    apply Hx. now apply (In_firstn n l).
Qed.

Lemma NoDup_firstn_of {A : Type} (n : nat) (l : list A) :
  NoDup l -> NoDup (firstn n l).
Proof.
  intros H. revert n. induction H as [|x l Hx Hl IH]; intros [|n]; simpl;
    try constructor.
  - intros Hin. apply Hx. now apply (In_firstn n l).
  - apply IH.
Qed.

Lemma map_fullPath_toEntry (w : World) (files : list string) :
  map fullPath (map (toEntry w) files) = files.
Proof. rewrite map_map. simpl. apply map_id. Qed.

Lemma searchAll_In (w : World) (patterns files : list string) :
  searchAll w patterns = Ok files ->
  forall f, In f files
            <-> exists pat found,
                In pat patterns
                /\ findFiles w pat (Some node_modules_glob) (Some 20%nat) = Ok found
                /\ In f found.
Proof.
  revert files. induction patterns as [|p ps IH]; intros files H f; simpl in H.
  - injection H as <-. split; [contradiction | intros (? & ? & [] & _)].
  - destruct (findFiles w p (Some node_modules_glob) (Some 20%nat)) as [found|m] eqn:E;
      [|discriminate].
    destruct (searchAll w ps) as [more|m]; [|discriminate].
    injection H as <-. rewrite in_app_iff, (IH more eq_refl f). split.
    + intros [Hf | (pat & fnd & Hp & Hfnd & Hf)].
      * exists p, found. simpl. auto.
      * exists pat, fnd. simpl. auto.
    + intros (pat & fnd & [<- | Hp] & Hfnd & Hf).
      * left. rewrite E in Hfnd. now injection Hfnd as <-.
      * right. now exists pat, fnd.
Qed.


(** X6.  The suggestions [_getWorkspaceFiles] posts are at most twenty,
    no file appears twice among them, each is the entry of a file that one
    of the five searches found, and they stand in the order of the
    comparator: exact matches, then paths containing the query, then
    shorter paths. *)
Theorem getWorkspaceFiles_posted (w : World) (query : string)
        (posted : list FileEntry) :
  _getWorkspaceFiles w query = Some posted ->
  length posted <= 20
  /\ NoDup (map fullPath posted)
  /\ StronglySorted (notAfter (normalizeQuery query)) posted
  /\ Forall (fun e =>
               e = toEntry w (fullPath e)
               /\ exists pat found,
                   In pat (searchPatterns (normalizeQuery query))
                   /\ findFiles w pat (Some node_modules_glob) (Some 20%nat)
                      = Ok found
                   /\ In (fullPath e) found)
            posted.
Proof.
  unfold _getWorkspaceFiles.
  destruct (workspaceFolders w) as [folders|]; [|discriminate].
  destruct (searchAll w (searchPatterns (normalizeQuery query))) as [files|m] eqn:Es.
  - intros H.
    assert (E : posted = firstn 20 (rankFiles query (map (toEntry w) (Set_of files))))
      by (unfold slice0 in H; congruence).
    clear H. subst posted.
    set (entries := map (toEntry w) (Set_of files)).
    split; [apply firstn_le_length|]. split; [|split].
    + rewrite <- firstn_map. apply NoDup_firstn_of.
      apply (Permutation_NoDup (l := map fullPath entries)).
      * apply Permutation_map, rankFiles_perm.
      * unfold entries. rewrite map_fullPath_toEntry. apply Set_of_NoDup.
    + apply StronglySorted_firstn, rankFiles_sorted.
    + apply Forall_forall. intros e He. apply In_firstn in He.
      apply (Permutation_in e (Permutation_sym (rankFiles_perm query entries))) in He.
      unfold entries in He. apply in_map_iff in He as (f & <- & Hf).
      split; [reflexivity|]. apply (proj1 (In_Set_of _ _)) in Hf.
      exact (proj1 (searchAll_In w _ _ Es f) Hf).
  - intros H. assert (E : posted = []) by congruence. subst posted. simpl.
    split; [lia|]. split; [constructor|]. split; constructor.
Qed.

(** The suggestions for [app] in a folder holding [zapp.md] and
    [src/app.ts]. *)
Lemma getWorkspaceFiles_posted_witness :
  length (map Fixture.entry ["zapp.md"; "src/app.ts"]) <= 20
  /\ NoDup (map fullPath (map Fixture.entry ["zapp.md"; "src/app.ts"])).
Proof.
  destruct (getWorkspaceFiles_posted Fixture.ws_rank "app"
              (map Fixture.entry ["zapp.md"; "src/app.ts"]))
    as (H1 & H2 & _); [vm_compute; reflexivity|].
  split; assumption.
Defined.

(** X7.  When the searches find a file whose workspace-relative path is
    the normalised query up to letter case, the first suggestion posted is
    such an exact match. *)
Theorem getWorkspaceFiles_exact_first
        (w : World) (folders : list string) (query : string)
        (files : list string) (file : string) :
  workspaceFolders w = Some folders ->
  searchAll w (searchPatterns (normalizeQuery query)) = Ok files ->
  In file files ->
  isExact (normalizeQuery query) (toEntry w file) = true ->
  exists first rest,
    _getWorkspaceFiles w query = Some (first :: rest)
    /\ isExact (normalizeQuery query) first = true.
Proof.
  intros Hw Hs Hin Hex. unfold _getWorkspaceFiles. rewrite Hw, Hs.
  set (entries := map (toEntry w) (Set_of files)).
  assert (He : In (toEntry w file) (rankFiles query entries)).
  { apply (Permutation_in _ (rankFiles_perm query entries)).
    unfold entries. apply in_map. now apply In_Set_of. }
  pose proof (rankFiles_sorted query entries) as Hsorted.
  destruct (rankFiles query entries) as [|first ranked]; [contradiction|].
  exists first, (firstn 19 ranked). split; [reflexivity|].
  destruct He as [-> | He]; [exact Hex|].
  apply StronglySorted_inv in Hsorted as [_ Hfirst].
  rewrite Forall_forall in Hfirst. specialize (Hfirst _ He).
  unfold notAfter in Hfirst. rewrite Hex in Hfirst.
  destruct Hfirst as [[_ H] | [H _]]; [discriminate | exact H].
Qed.

(** The query [SRC\App.ts] in a folder holding [src/app.ts]. *)
Lemma getWorkspaceFiles_exact_first_witness :
  exists first rest,
    _getWorkspaceFiles Fixture.ws_app (String "S" (String "R" (String "C"
        (String ChatPanel.backslash "App.ts"))))
    = Some (first :: rest)
    /\ isExact (normalizeQuery (String "S" (String "R" (String "C"
                  (String ChatPanel.backslash "App.ts"))))) first = true.
Proof.
  apply (getWorkspaceFiles_exact_first Fixture.ws_app ["/ws"] _
           ["/ws/src/app.ts"; "/ws/src/app.ts"; "/ws/src/app.ts"] "/ws/src/app.ts").
  - reflexivity.
  - vm_compute. reflexivity.
  - now left.
  - vm_compute. reflexivity.
Defined.


End Suggestions.

Section Relevance.
Import JS Path ChatPanel.
Local Open Scope Z_scope.

Lemma prefix_refl (s : string) : String.prefix s s = true.
Proof.
  induction s as [|x s IH]; simpl; [reflexivity|].
  destruct (ascii_dec x x) as [_|ne]; [exact IH | now elim ne].
Qed.

Lemma bonus_range (b : bool) (points : Z) :
  0 <= points -> 0 <= bonus b points <= points.
Proof. destruct b; simpl; lia. Qed.

(** X9.  The score of [_calculateRelevance] lies between 0 and 2170; a
    file whose path is the query up to letter case scores at least 1500,
    any other file at most 1170, so an exact match always scores strictly
    above every candidate that is not one; and a file whose name is the
    basename of the query scores at least 350. *)
Theorem calculateRelevance_bounds (a b : FileEntry) (query : string) :
  0 <= _calculateRelevance a query <= 2170
  /\ (toLowerCase (path a) = toLowerCase query ->
      1500 <= _calculateRelevance a query)
  /\ (toLowerCase (path a) <> toLowerCase query ->
      _calculateRelevance a query <= 1170)
  /\ (toLowerCase (path a) = toLowerCase query ->
      toLowerCase (path b) <> toLowerCase query ->
      _calculateRelevance b query < _calculateRelevance a query)
  /\ (toLowerCase (name a) = basename (toLowerCase query) ->
      350 <= _calculateRelevance a query).
Proof.
  assert (Hexact : forall f, toLowerCase (path f) = toLowerCase query ->
                             1500 <= _calculateRelevance f query).
  { intros f E. unfold _calculateRelevance. rewrite E, String.eqb_refl, includes_self.
    cbn [bonus].
    pose proof (bonus_range (includes (toLowerCase (directory f)) (toLowerCase query)) 300).
    pose proof (bonus_range (String.eqb (toLowerCase (name f)) (basename (toLowerCase query))) 200).
    pose proof (bonus_range (startsWith (toLowerCase (name f)) (basename (toLowerCase query))) 100).
    pose proof (bonus_range (includes (toLowerCase (name f)) (basename (toLowerCase query))) 50).
    pose proof (bonus_range (array_includes commonExtensions (toLowerCase (extname (name f)))) 20).
    lia. }
  assert (Hother : forall f, toLowerCase (path f) <> toLowerCase query ->
                             _calculateRelevance f query <= 1170).
  { intros f E. unfold _calculateRelevance.
    apply String.eqb_neq in E. rewrite E. cbn [bonus].
    pose proof (bonus_range (includes (toLowerCase (path f)) (toLowerCase query)) 500).
    pose proof (bonus_range (includes (toLowerCase (directory f)) (toLowerCase query)) 300).
    pose proof (bonus_range (String.eqb (toLowerCase (name f)) (basename (toLowerCase query))) 200).
    pose proof (bonus_range (startsWith (toLowerCase (name f)) (basename (toLowerCase query))) 100).
    pose proof (bonus_range (includes (toLowerCase (name f)) (basename (toLowerCase query))) 50).
    pose proof (bonus_range (array_includes commonExtensions (toLowerCase (extname (name f)))) 20).
    lia. }
  split; [|split; [apply Hexact | split; [apply Hother | split]]].
  - unfold _calculateRelevance.
    pose proof (bonus_range (String.eqb (toLowerCase (path a)) (toLowerCase query)) 1000).
    pose proof (bonus_range (includes (toLowerCase (path a)) (toLowerCase query)) 500).
    pose proof (bonus_range (includes (toLowerCase (directory a)) (toLowerCase query)) 300).
    pose proof (bonus_range (String.eqb (toLowerCase (name a)) (basename (toLowerCase query))) 200).
    pose proof (bonus_range (startsWith (toLowerCase (name a)) (basename (toLowerCase query))) 100).
    pose proof (bonus_range (includes (toLowerCase (name a)) (basename (toLowerCase query))) 50).
    pose proof (bonus_range (array_includes commonExtensions (toLowerCase (extname (name a)))) 20).
    lia.
  - intros Ea Eb. specialize (Hexact a Ea). specialize (Hother b Eb). lia.
  - intros E. unfold _calculateRelevance, startsWith.
    rewrite E, String.eqb_refl, prefix_refl, includes_self. cbn [bonus].
    pose proof (bonus_range (String.eqb (toLowerCase (path a)) (toLowerCase query)) 1000).
    pose proof (bonus_range (includes (toLowerCase (path a)) (toLowerCase query)) 500).
    pose proof (bonus_range (includes (toLowerCase (directory a)) (toLowerCase query)) 300).
    pose proof (bonus_range (array_includes commonExtensions (toLowerCase (extname (name a)))) 20).
    lia.
Qed.
End Relevance.

Section Handler.
Import JS Path ChatPanel.

Lemma fold_Set_add_extends (xs acc : list string) :
  exists later,
    fold_left Set_add xs acc = (acc ++ later)%list
    /\ forall f, In f later -> In f xs /\ ~ In f acc.
Proof.
  revert acc. induction xs as [|x xs IH]; intros acc; simpl.
  - exists []. split; [now rewrite app_nil_r | contradiction].
  - destruct (IH (Set_add acc x)) as (later & E & Hl). unfold Set_add in *.
    destruct (array_includes acc x) eqn:Ex.
    + exists later. split; [exact E|]. intros f Hf.
      destruct (Hl f Hf). auto.
    + exists (x :: later). split; [now rewrite E, <- app_assoc|].
      apply array_includes_not_In in Ex.
      intros f [<- | Hf]; [auto|]. destruct (Hl f Hf) as [H1 H2].
      split; [auto|]. intros H. apply H2, in_or_app. now left.
Qed.

Lemma fold_Set_add_NoDup (xs acc : list string) :
  NoDup (acc ++ xs) -> fold_left Set_add xs acc = (acc ++ xs)%list.
Proof.
  revert acc. induction xs as [|x xs IH]; intros acc H; simpl.
  - now rewrite app_nil_r.
  - assert (Hx : array_includes acc x = false).
    { apply array_includes_not_In. intros Hin.
      apply NoDup_remove_2 in H. apply H, in_or_app. now left. }
    unfold Set_add. rewrite Hx, IH; rewrite <- app_assoc; [reflexivity | exact H].
Qed.

(** X10.  Attachments come first: the file set of a chat message is the
    attached paths, each once and in their order, followed by resolved
    mentions that are not attached paths; an attachment list without
    repetition is kept as it is. *)
Theorem allFiles_attachments_first (w : World) (text : string)
        (attached : list string) :
  exists later,
    allFiles w text attached = (Set_of attached ++ later)%list
    /\ (forall f, In f later -> In f (resolvedFiles w text) /\ ~ In f attached)
    /\ (NoDup attached -> Set_of attached = attached).
Proof.
  unfold allFiles, Set_of. rewrite fold_left_app.
  destruct (fold_Set_add_extends (resolvedFiles w text) (fold_left Set_add attached []))
    as (later & E & Hl).
  exists later. split; [exact E|]. split.
  - intros f Hf. destruct (Hl f Hf) as [H1 H2]. split; [exact H1|].
    intros H. apply H2. now apply In_Set_of.
  - intros H. now apply (fold_Set_add_NoDup attached []).
Qed.

Lemma fold_append_prefix {A : Type} (g : A -> string) (l : list A) (init : string) :
  exists rest, fold_left (fun acc x => acc ++ g x) l init = init ++ rest.
Proof.
  revert init. induction l as [|x l IH]; intros init; simpl.
  - exists "". clear. induction init as [|c s IH]; simpl; [reflexivity | now rewrite <- IH].
  - destruct (IH (init ++ g x)) as (rest & ->). exists (g x ++ rest).
    apply append_assoc.
Qed.

Lemma fold_append_contains {A : Type} (g : A -> string) (l : list A)
      (init : string) (x : A) :
  In x l ->
  exists pre post, fold_left (fun acc y => acc ++ g y) l init = pre ++ g x ++ post.
Proof.
  revert init. induction l as [|y l IH]; intros init Hin; [contradiction|]. simpl.
  destruct Hin as [-> | Hin].
  - destruct (fold_append_prefix g l (init ++ g x)) as (rest & ->).
    exists init, rest. apply append_assoc.
  - apply IH, Hin.
Qed.

Lemma buildPrompt_contents (text : string) (files : list FileContent) :
  String.prefix text (buildPrompt text files) = true
  /\ forall file, In file files ->
                  includes (buildPrompt text files) (fileBlock file) = true
                  /\ includes (buildPrompt text files) (fc_content file) = true.
Proof.
  destruct files as [|f0 fs].
  - split; [apply prefix_refl | contradiction].
  - unfold buildPrompt. split.
    + destruct (fold_append_prefix fileBlock (f0 :: fs)
                  (text ++ nl ++ nl ++ "=== Referenced Files ===" ++ nl))
        as (rest & ->).
      rewrite append_assoc. apply prefix_append.
    + intros file Hin.
      destruct (fold_append_contains fileBlock (f0 :: fs)
                  (text ++ nl ++ nl ++ "=== Referenced Files ===" ++ nl) file Hin)
        as (pre & post & ->).
      split; [apply includes_append|].
      apply (includes_intro
               (pre ++ nl ++ "// File: " ++ fc_path file ++ nl ++ "// Language: "
                ++ _getFileLanguage (fc_path file) ++ nl ++ fence ++ nl)
               _ (nl ++ fence ++ nl ++ post)).
      unfold fileBlock. rewrite !append_assoc. reflexivity.
Qed.

Lemma paired_contents (w : World) (fs : list string) (cs : list FileContent)
      (f c : string) :
  map fc_path cs = map (asRelativePath w) fs ->
  map (fun x => Ok (fc_content x)) cs = map (_readFileContent w) fs ->
  In f fs -> _readFileContent w f = Ok c ->
  In {| fc_path := asRelativePath w f; fc_content := c |} cs.
Proof.
  revert cs. induction fs as [|g fs IH]; intros cs Hp Hc Hin Hr; [contradiction|].
  destruct cs as [|[p0 c0] cs]; [discriminate|].
  simpl in Hp, Hc. injection Hp as Hp0 Hp. injection Hc as Hc0 Hc.
  destruct Hin as [-> | Hin].
  - left. rewrite Hr in Hc0. injection Hc0 as ->. now rewrite Hp0.
  - right. now apply IH.
Qed.

(** X11.  When every file of the set reads, the prompt handed to the
    model begins with the user's text and contains, for every file, its
    block and within it the file's content as read; the handler then posts
    the model's answer together with the file set, or [Error: ] and the
    model's failure. *)
Theorem chat_prompt_contents (w : World) (text : string)
        (attached : list string) :
  (forall f, In f (allFiles w text attached) ->
             exists c, _readFileContent w f = Ok c) ->
  exists prompt,
    enhancedPrompt w text attached = Ok prompt
    /\ String.prefix text prompt = true
    /\ (forall f c,
           In f (allFiles w text attached) -> _readFileContent w f = Ok c ->
           includes prompt
             (fileBlock {| fc_path := asRelativePath w f; fc_content := c |}) = true
           /\ includes prompt c = true)
    /\ _handleChatMessage w text attached
       = match callAI w prompt with
         | Ok response => aiResponse response (allFiles w text attached)
         | Throw m => error ("Error: " ++ m)
         end.
Proof.
  intros Hall.
  destruct (enhancedPrompt_all_read w text attached Hall) as (cs & E & Hp & Hc).
  exists (buildPrompt text cs). split; [exact E|].
  destruct (buildPrompt_contents text cs) as [Hpre Hin].
  split; [exact Hpre|]. split.
  - intros f c Hf Hr.
    exact (Hin _ (paired_contents w _ cs f c Hp Hc Hf Hr)).
  - unfold _handleChatMessage. now rewrite E.
Qed.

(** A mention of [app.ts] in the folder that holds [src/app.ts]. *)
Lemma chat_prompt_contents_witness :
  exists prompt,
    enhancedPrompt Fixture.ws_app "look at @app.ts" [] = Ok prompt
    /\ String.prefix "look at @app.ts" prompt = true
    /\ (forall f c,
           In f (allFiles Fixture.ws_app "look at @app.ts" []) ->
           _readFileContent Fixture.ws_app f = Ok c ->
           includes prompt
             (fileBlock {| fc_path := asRelativePath Fixture.ws_app f;
                           fc_content := c |}) = true
           /\ includes prompt c = true)
    /\ _handleChatMessage Fixture.ws_app "look at @app.ts" []
       = match callAI Fixture.ws_app prompt with
         | Ok response =>
             aiResponse response (allFiles Fixture.ws_app "look at @app.ts" [])
         | Throw m => error ("Error: " ++ m)
         end.
Proof.
  apply (chat_prompt_contents Fixture.ws_app "look at @app.ts" []).
  intros f Hf.
  assert (E : allFiles Fixture.ws_app "look at @app.ts" [] = ["/ws/src/app.ts"])
    by (vm_compute; reflexivity).
  rewrite E in Hf. destruct Hf as [<- | []]. exists "export {};". reflexivity.
Defined.

(** X12.  Mentions that resolve to nothing are dropped without a trace:
    when no reference of the text resolves, the file set is the attached
    paths alone, and a message without attachments goes to the model as
    typed, with no file section and no error of its own. *)
Theorem unresolved_mentions_are_dropped (w : World) (text : string) :
  (forall ref, In ref (fileReferences text) -> resolveReference w ref = None) ->
  resolvedFiles w text = []
  /\ (forall attached, allFiles w text attached = Set_of attached)
  /\ enhancedPrompt w text [] = Ok text
  /\ _handleChatMessage w text []
     = match callAI w text with
       | Ok response => aiResponse response []
       | Throw m => error ("Error: " ++ m)
       end.
Proof.
  intros H.
  assert (Hres : resolvedFiles w text = []).
  { unfold resolvedFiles. induction (fileReferences text) as [|r rs IH]; [reflexivity|].
    simpl. rewrite (H r (or_introl eq_refl)). apply IH.
    intros ref Hin. apply H. now right. }
  assert (Hall : forall attached, allFiles w text attached = Set_of attached).
  { intros attached. unfold allFiles. now rewrite Hres, app_nil_r. }
  assert (Hp : enhancedPrompt w text [] = Ok text).
  { unfold enhancedPrompt. now rewrite Hall. }
  split; [exact Hres|]. split; [exact Hall|]. split; [exact Hp|].
  unfold _handleChatMessage. now rewrite Hp, Hall.
Qed.

(** [@app.ts] while the search service is down. *)
Lemma unresolved_mentions_witness :
  _handleChatMessage Fixture.failingSearch "explain @app.ts" []
  = match callAI Fixture.failingSearch "explain @app.ts" with
    | Ok response => aiResponse response []
    | Throw m => error ("Error: " ++ m)
    end.
Proof.
  apply (unresolved_mentions_are_dropped Fixture.failingSearch "explain @app.ts").
  intros ref Hin. reflexivity.
Defined.

Lemma enhancedPrompt_with_callAI (w : World) (call : string -> result string)
      (text : string) (attached : list string) :
  enhancedPrompt (with_callAI w call) text attached = enhancedPrompt w text attached.
Proof. reflexivity. Qed.

(** X13.  Without an API key nothing is sent and no answer is posted:
    when the setting is missing or empty, [_callAI] fails with the request
    to set the key whatever the endpoint would answer, and every chat
    message ends in an error message; that message is the request to set
    the key whenever the files read. *)
Theorem no_api_key (cfg : Configuration) :
  cfg_apiKey cfg = None \/ cfg_apiKey cfg = Some "" ->
  (forall post prompt, _callAI cfg post prompt = Throw missingKey)
  /\ forall w post text attached,
      (exists m, _handleChatMessage (with_callAI w (_callAI cfg post)) text attached
                 = error m)
      /\ ((forall f, In f (allFiles w text attached) ->
                     exists c, _readFileContent w f = Ok c) ->
          _handleChatMessage (with_callAI w (_callAI cfg post)) text attached
          = error ("Error: " ++ missingKey)).
Proof.
  intros Hkey.
  assert (Hcall : forall post prompt, _callAI cfg post prompt = Throw missingKey).
  { intros post prompt. unfold _callAI. now destruct Hkey as [-> | ->]. }
  split; [exact Hcall|]. intros w post text attached.
  unfold _handleChatMessage. rewrite enhancedPrompt_with_callAI.
  cbn [callAI with_callAI]. split.
  - destruct (enhancedPrompt w text attached) as [prompt|m]; [|eauto].
    rewrite Hcall. eauto.
  - intros Hall.
    destruct (enhancedPrompt_all_read w text attached Hall) as (cs & -> & _).
    now rewrite Hcall.
Qed.

(** The key was never set. *)
Lemma no_api_key_witness :
  _callAI {| cfg_apiKey := None; cfg_apiUrl := None |}
          (fun _ _ _ => Ok ["an answer"]) "hi"
  = Throw missingKey.
Proof.
  apply (no_api_key {| cfg_apiKey := None; cfg_apiUrl := None |}). now left.
Defined.

(** X14.  An answer of [_callAI] is always the first choice of a reply to
    a request that went to the configured address, or to the DeepSeek
    address when none is configured, carried the key as bearer token and
    held the system message followed by the prompt as the only user
    message. *)
Theorem callAI_answer (cfg : Configuration) (post : Axios)
        (prompt answer : string) :
  _callAI cfg post prompt = Ok answer ->
  exists apiKey others,
    cfg_apiKey cfg = Some apiKey /\ apiKey <> ""
    /\ post (match cfg_apiUrl cfg with
             | Some url => if nonempty url then url else defaultApiUrl
             | None => defaultApiUrl
             end)
            (chatBody prompt)
            {| hdr_Authorization := "Bearer " ++ apiKey;
               hdr_Content_Type := "application/json" |}
       = Ok (answer :: others)
    /\ map msg_role (body_messages (chatBody prompt)) = ["system"; "user"]
    /\ map msg_content (body_messages (chatBody prompt)) = [systemContent; prompt].
Proof.
  unfold _callAI. destruct (cfg_apiKey cfg) as [apiKey|]; [|discriminate].
  destruct (nonempty apiKey) eqn:Ek; [|discriminate].
  assert (Hurl : or_else (cfg_apiUrl cfg) defaultApiUrl
                 = match cfg_apiUrl cfg with
                   | Some url => if nonempty url then url else defaultApiUrl
                   | None => defaultApiUrl
                   end).
  { destruct (cfg_apiUrl cfg) as [[|c u]|]; reflexivity. }
  rewrite Hurl.
  destruct (post _ (chatBody prompt) _) as [[|first others]|m] eqn:Ep;
    try discriminate.
  intros H. injection H as <-. exists apiKey, others.
  split; [reflexivity|]. split.
  - intros ->. discriminate Ek.
  - split; [exact Ep|]. split; reflexivity.
Qed.

(** An endpoint that answers every request with two choices. *)
Lemma callAI_answer_witness :
  exists apiKey others,
    Some "sk-1" = Some apiKey /\ apiKey <> ""
    /\ (fun _ _ _ => Ok ["first"; "second"]) defaultApiUrl (chatBody "hi")
         {| hdr_Authorization := "Bearer " ++ apiKey;
            hdr_Content_Type := "application/json" |}
       = Ok ("first" :: others)
    /\ map msg_role (body_messages (chatBody "hi")) = ["system"; "user"]
    /\ map msg_content (body_messages (chatBody "hi")) = [systemContent; "hi"].
Proof.
  apply (callAI_answer {| cfg_apiKey := Some "sk-1"; cfg_apiUrl := Some "" |}
           (fun _ _ _ => Ok ["first"; "second"]) "hi" "first").
  reflexivity.
Defined.
End Handler.

(** * The script of the webview *)

Section Webview.
Import JS Path ChatPanel.

Lemma step_keeps_distinct (st : ChatState) (e : Event) :
  NoDup (attachedFiles st) ->
  NoDup (attachedFiles (snd (step st e)))
  /\ match fst (step st e) with
     | Some (sendMessageRequest text attached) =>
         NoDup attached /\ (blank text = false \/ attached <> [])
     | _ => True
     end.
Proof.
  intros H. destruct e as [message | value cursor | cursor file | filePath | ].
  - split; [|exact I]. now destruct message.
  - cbn [step]. unfold handleInputChange.
    destruct (lastIndexOf (substringTo cursor value) "@"%char =? -1)%Z;
      split; try exact H; exact I.
  - split; [|exact I]. cbn [step snd handleSuggestionClick attachedFiles].
    exact (NoDup_Set_add (attachedFiles st) (path file) H).
  - split; [|exact I]. cbn [step snd removeAttachedFile attachedFiles].
    now apply NoDup_filter.
  - cbn [step]. unfold sendMessage.
    destruct (blank (input st)) eqn:Eb, (attachedFiles st) as [|a l] eqn:Ea;
      cbn [andb length Nat.eqb fst snd attachedFiles].
    + rewrite Ea. split; [exact H | exact I].
    + split; [constructor|]. split; [exact H | right; discriminate].
    + split; [constructor|]. split; [exact H | now left].
    + split; [constructor|]. split; [exact H | now left].
Qed.

Lemma run_keeps_distinct (events : list Event) (st : ChatState) :
  NoDup (attachedFiles st) ->
  NoDup (attachedFiles (snd (run st events)))
  /\ Forall (fun r => match r with
                      | sendMessageRequest text attached =>
                          NoDup attached /\ (blank text = false \/ attached <> [])
                      | getWorkspaceFilesRequest _ => True
                      end)
            (fst (run st events)).
Proof.
  revert st. induction events as [|e events IH]; intros st H.
  - split; [exact H | constructor].
  - cbn [run]. destruct (step_keeps_distinct st e H) as [H1 H2].
    destruct (step st e) as [posted st'] eqn:Es. cbn [fst snd] in H1, H2.
    destruct (IH st' H1) as [I1 I2].
    destruct (run st' events) as [more final]. cbn [fst snd] in *.
    split; [exact I1|].
    destruct posted as [[text attached | query]|]; try constructor; assumption.
Qed.

(** X15.  Whatever the user does in the view, starting from the empty
    chat, the list of attached files never holds a path twice, and every
    [sendMessage] request posted carries an attachment list without
    repetition and is not empty: its text is not blank or it has an
    attachment. *)
Theorem attachments_stay_distinct (events : list Event) :
  NoDup (attachedFiles (snd (run initialState events)))
  /\ Forall (fun r => match r with
                      | sendMessageRequest text attached =>
                          NoDup attached /\ (blank text = false \/ attached <> [])
                      | getWorkspaceFilesRequest _ => True
                      end)
            (fst (run initialState events)).
Proof. apply run_keeps_distinct. constructor. Qed.



End Webview.

(** * Further properties of the file manager *)

Section ManagerSearch.
Import JS Path FileManager.

Variable localeCompare : string -> string -> Z.

(** The name of the entry contains the query, letter case aside. *)
Local Abbreviation nameMatches query info :=
  (includes (toLowerCase (fi_name info)) (toLowerCase query)).

(** X17.  Every entry [getWorkspaceFiles] of the file manager returns
    describes a file the search found, with the fields the file determines
    (relative path, name, lower-cased extension, and an image flag that is
    [isImageFile] of the file), and passes the filter: its extension is a
    text or image extension, or it has none and its name contains one of
    [readme], [dockerfile], [makefile], [license], [changelog]. *)
Theorem manager_entries (w : World) (query : string) (limit : nat) :
  Forall (fun info =>
            info = toFileInfo w (fi_fullPath info)
            /\ fi_isImage info = isImageFile (fi_fullPath info)
            /\ (In (fi_extension info) textExtensions
                \/ In (fi_extension info) imageExtensions
                \/ (fi_extension info = ""
                    /\ exists word,
                        In word textFilenames
                        /\ includes (toLowerCase (basename (fi_fullPath info)))
                                    word = true))
            /\ exists found,
                findFiles w (if ChatPanel.nonempty query
                             then "**/*" ++ query ++ "*" else "**/*")
                          (Some "**/node_modules/**") (Some limit) = Ok found
                /\ In (fi_fullPath info) found)
         (getWorkspaceFiles localeCompare w query limit).
Proof.
  unfold getWorkspaceFiles.
  destruct (workspaceFolders w); [|constructor].
  destruct (findFiles w _ (Some "**/node_modules/**") (Some limit)) as [files|m] eqn:E;
    [|constructor].
  apply Forall_forall. intros info Hin.
  apply (Permutation_in info (Permutation_sym (Array_sort_perm _ _))) in Hin.
  apply in_map_iff in Hin as (file & <- & Hf). apply filter_In in Hf as [Hf Hkeep].
  split; [reflexivity|]. split; [reflexivity|]. split; [|now exists files].
  cbn [toFileInfo fi_extension fi_fullPath].
  unfold shouldIncludeFile in Hkeep.
  destruct (array_includes textExtensions (toLowerCase (extname file))) eqn:Et.
  - left. now apply array_includes_In.
  - destruct (array_includes imageExtensions (toLowerCase (extname file))) eqn:Ei.
    + right. left. now apply array_includes_In.
    + right. right. cbn [orb] in Hkeep. unfold ChatPanel.nonempty in Hkeep.
      destruct (String.eqb_spec (toLowerCase (extname file)) "") as [E0 | _];
        [|discriminate Hkeep].
      split; [exact E0|]. cbn [negb] in Hkeep.
      apply existsb_exists in Hkeep as (word & Hw & Hinc). now exists word.
Qed.

Hypothesis localeCompare_trans :
  forall a b c, (localeCompare a b <= 0)%Z -> (localeCompare b c <= 0)%Z ->
                (localeCompare a c <= 0)%Z.
Hypothesis localeCompare_total :
  forall a b, (localeCompare a b <= 0)%Z \/ (localeCompare b a <= 0)%Z.

Lemma compareInfo_le (query : string) (a b : FileInfo) :
  (compareInfo localeCompare query a b <= 0)%Z
  <-> (ChatPanel.nonempty query = true
       /\ nameMatches query a = true /\ nameMatches query b = false)
      \/ ((ChatPanel.nonempty query = false
           \/ nameMatches query a = nameMatches query b)
          /\ (localeCompare (fi_path a) (fi_path b) <= 0)%Z).
Proof.
  unfold compareInfo.
  destruct (ChatPanel.nonempty query), (nameMatches query a), (nameMatches query b);
    cbn; split; intros H;
    repeat match goal with
           | H : _ \/ _ |- _ => destruct H
           | H : _ /\ _ |- _ => destruct H
           end;
    try discriminate; try lia; auto.
Qed.

(** X18.  For a locale comparison that is a total preorder, the entries
    [getWorkspaceFiles] returns for a non-empty query have those whose
    name contains the query before all others, and within each of the two
    groups, as in the whole list for an empty query, they stand in the
    order of the locale comparison of their relative paths. *)
Theorem manager_entries_order (w : World) (query : string) (limit : nat) :
  StronglySorted
    (fun a b =>
       (ChatPanel.nonempty query = true ->
        nameMatches query b = true -> nameMatches query a = true)
       /\ (ChatPanel.nonempty query = false
           \/ nameMatches query a = nameMatches query b ->
           (localeCompare (fi_path a) (fi_path b) <= 0)%Z))
    (getWorkspaceFiles localeCompare w query limit).
Proof.
  unfold getWorkspaceFiles.
  destruct (workspaceFolders w); [|constructor].
  destruct (findFiles w _ (Some "**/node_modules/**") (Some limit)) as [files|m];
    [|constructor].
  apply StronglySorted_weaken with (R := cmp_le (compareInfo localeCompare query)).
  - intros a b Hab. apply compareInfo_le in Hab.
    destruct Hab as [(Hq & Ha & Hb) | [Hsame Hlc]].
    + split; [auto|]. intros [Hq' | Hab]; congruence.
    + split; [|auto]. intros Hq Hb. destruct Hsame as [Hq' | Hab]; congruence.
  - apply Array_sort_sorted.
    + intros a b c. unfold JS.cmp_le. rewrite !compareInfo_le.
      destruct (ChatPanel.nonempty query), (nameMatches query a),
               (nameMatches query b), (nameMatches query c);
        intros H1 H2;
        repeat match goal with
               | H : _ \/ _ |- _ => destruct H
               | H : _ /\ _ |- _ => destruct H
               end;
        try discriminate;
        try (left; repeat split; reflexivity);
        right; (split; [auto | eapply localeCompare_trans; eassumption]).
    + intros a b. unfold JS.cmp_le. rewrite !compareInfo_le.
      destruct (localeCompare_total (fi_path a) (fi_path b)) as [H | H];
        destruct (ChatPanel.nonempty query),
                 (nameMatches query a), (nameMatches query b);
        first [ left; left; repeat split; reflexivity
              | right; left; repeat split; reflexivity
              | left; right; split; [auto | exact H]
              | right; right; split; [auto | exact H] ].
Qed.
End ManagerSearch.

(** Paths compared by their length; the search for [app] in the folder
    holding [zapp.md] and [src/app.ts]. *)
Lemma manager_entries_order_witness :
  map FileManager.fi_path
      (FileManager.getWorkspaceFiles
         (fun a b => (Z.of_nat (String.length a) - Z.of_nat (String.length b))%Z)
         Fixture.ws_rank "app" 50)
  = ["zapp.md"; "src/app.ts"]
  /\ StronglySorted
       (fun a b =>
          (ChatPanel.nonempty "app" = true ->
           JS.includes (JS.toLowerCase (FileManager.fi_name b)) (JS.toLowerCase "app") = true ->
           JS.includes (JS.toLowerCase (FileManager.fi_name a)) (JS.toLowerCase "app") = true)
          /\ (ChatPanel.nonempty "app" = false
              \/ JS.includes (JS.toLowerCase (FileManager.fi_name a)) (JS.toLowerCase "app")
                 = JS.includes (JS.toLowerCase (FileManager.fi_name b)) (JS.toLowerCase "app") ->
              (Z.of_nat (String.length (FileManager.fi_path a))
               - Z.of_nat (String.length (FileManager.fi_path b)) <= 0)%Z))
       (FileManager.getWorkspaceFiles
          (fun a b => (Z.of_nat (String.length a) - Z.of_nat (String.length b))%Z)
          Fixture.ws_rank "app" 50).
Proof.
  split; [vm_compute; reflexivity|].
  apply (manager_entries_order
           (fun a b => (Z.of_nat (String.length a) - Z.of_nat (String.length b))%Z)).
  - intros a b c. lia.
  - intros a b. lia.
Defined.

Section ManagerResolution.
Import JS Path FileManager.

Lemma find_first {A : Type} (f : A -> bool) (before after : list A) (x : A) :
  (forall y, In y before -> f y = false) -> f x = true ->
  find f (before ++ x :: after) = Some x.
Proof.
  induction before as [|y before IH]; intros Hb Hx; simpl.
  - now rewrite Hx.
  - rewrite (Hb y (or_introl eq_refl)). apply IH; [|exact Hx].
    intros z Hz. apply Hb. now right.
Qed.

(** X19.  The first workspace folder that holds the path wins: when the
    path joined to each earlier folder does not exist and the path joined
    to this folder does, [resolveFilePath] returns that join, whatever the
    later folders hold and without searching. *)
Theorem resolveFilePath_first_folder
        (w : World) (before after : list string) (folder relativePath : string) :
  workspaceFolders w = Some (before ++ folder :: after)%list ->
  (forall earlier, In earlier before ->
                   fs_access w (join earlier relativePath) = false) ->
  fs_access w (join folder relativePath) = true ->
  resolveFilePath w relativePath = Ok (join folder relativePath).
Proof.
  intros Hw Hb Hf. unfold resolveFilePath, Array_find. rewrite Hw.
  now rewrite (find_first (fun folder => fs_access w (join folder relativePath))
                 before after folder Hb Hf).
Qed.

(** [a.ts] is in the second of two folders. *)
Lemma resolveFilePath_first_folder_witness :
  resolveFilePath Fixture.twoRoots "a.ts" = Ok "/two/a.ts".
Proof.
  apply (resolveFilePath_first_folder Fixture.twoRoots ["/one"] [] "/two" "a.ts").
  - reflexivity.
  - intros earlier [<- | []]. reflexivity.
  - reflexivity.
Defined.

(** X20.  [resolveFilePath] never invents a path: what it returns is the
    join of a workspace folder with the path, and that file exists, or, no
    folder holding the path, a result of the search for its basename whose
    workspace-relative path is the path itself. *)
Theorem resolveFilePath_provenance (w : World) (relativePath full : string) :
  resolveFilePath w relativePath = Ok full ->
  exists folders,
    workspaceFolders w = Some folders
    /\ ((exists folder, In folder folders
                        /\ full = join folder relativePath
                        /\ fs_access w full = true)
        \/ ((forall folder, In folder folders ->
                            fs_access w (join folder relativePath) = false)
            /\ exists files,
                findFiles w ("**/" ++ basename relativePath) None None = Ok files
                /\ In full files
                /\ asRelativePath w full = relativePath)).
Proof.
  unfold resolveFilePath, Array_find.
  destruct (workspaceFolders w) as [folders|]; [|discriminate].
  intros H. exists folders. split; [reflexivity|].
  destruct (find (fun folder => fs_access w (join folder relativePath)) folders)
    as [folder|] eqn:Ef.
  - injection H as <-. apply find_some in Ef as [Hin Hacc].
    left. now exists folder.
  - right. split.
    + intros folder Hin. exact (find_none _ _ Ef folder Hin).
    + destruct (findFiles w ("**/" ++ basename relativePath) None None)
        as [files|m]; [|discriminate].
      destruct (find (fun file => String.eqb (asRelativePath w file) relativePath) files)
        as [exactMatch|] eqn:Em; [|discriminate].
      injection H as <-. apply find_some in Em as [Hin Heq].
      exists files. split; [reflexivity|]. split; [exact Hin|].
      now apply String.eqb_eq.
Qed.

(** [src/app.ts] in the folder that holds it. *)
Lemma resolveFilePath_provenance_witness :
  exists folders,
    workspaceFolders Fixture.ws_app = Some folders
    /\ ((exists folder, In folder folders
                        /\ "/ws/src/app.ts" = join folder "src/app.ts"
                        /\ fs_access Fixture.ws_app "/ws/src/app.ts" = true)
        \/ ((forall folder, In folder folders ->
                            fs_access Fixture.ws_app (join folder "src/app.ts") = false)
            /\ exists files,
                findFiles Fixture.ws_app ("**/" ++ basename "src/app.ts") None None
                = Ok files
                /\ In "/ws/src/app.ts" files
                /\ asRelativePath Fixture.ws_app "/ws/src/app.ts" = "src/app.ts")).
Proof.
  apply (resolveFilePath_provenance Fixture.ws_app "src/app.ts" "/ws/src/app.ts").
  reflexivity.
Defined.

(** X21.  [readFileContent] of the file manager fails in two ways only:
    with [No workspace folder open] when no folder is open, and otherwise
    with [Could not read file '<path>': ] followed by the cause, which is
    the failure of the resolution or that of opening the resolved text
    file; an image that resolves never fails. *)
Theorem readFileContent_failures (w : World) (filePath m : string) :
  readFileContent w filePath = Throw m ->
  (workspaceFolders w = None /\ m = "No workspace folder open")
  \/ exists cause,
      m = "Could not read file '" ++ filePath ++ "': " ++ cause
      /\ (resolve w filePath = Throw cause
          \/ exists fullPath,
              resolve w filePath = Ok fullPath
              /\ isImageFile fullPath = false
              /\ openTextDocument w fullPath = Throw cause).
Proof.
  unfold readFileContent, readResolved.
  destruct (workspaceFolders w) as [folders|].
  - intros H. right.
    destruct (resolve w filePath) as [fullPath|cause] eqn:Er.
    + destruct (isImageFile fullPath) eqn:Ei; [discriminate|].
      destruct (openTextDocument w fullPath) as [c|cause] eqn:Eo; [discriminate|].
      injection H as <-. exists cause. split; [reflexivity|].
      right. now exists fullPath.
    + injection H as <-. exists cause. split; [reflexivity | now left].
  - intros H. injection H as <-. now left.
Qed.

(** A file that is nowhere in the workspace. *)
Lemma readFileContent_failures_witness :
  readFileContent Fixture.ws_app "nope.ts"
  = Throw "Could not read file 'nope.ts': File not found: nope.ts"
  /\ ((workspaceFolders Fixture.ws_app = None
       /\ "Could not read file 'nope.ts': File not found: nope.ts"
          = "No workspace folder open")
      \/ exists cause,
          "Could not read file 'nope.ts': File not found: nope.ts"
          = "Could not read file '" ++ "nope.ts" ++ "': " ++ cause
          /\ (resolve Fixture.ws_app "nope.ts" = Throw cause
              \/ exists fullPath,
                  resolve Fixture.ws_app "nope.ts" = Ok fullPath
                  /\ isImageFile fullPath = false
                  /\ openTextDocument Fixture.ws_app fullPath = Throw cause)).
Proof.
  split; [reflexivity|].
  apply (readFileContent_failures Fixture.ws_app "nope.ts"). reflexivity.
Defined.
End ManagerResolution.

Section ManagerSizes.
Import JS FileManager.
Local Open Scope Z_scope.


(** X22.  For a size below 1024 bytes [formatFileSize] prints the byte
    count itself, followed by [Bytes]. *)
Theorem formatFileSize_bytes (bytes : Z) :
  1 <= bytes < 1024 ->
  formatFileSize bytes = (dec bytes ++ " Bytes")%string.
Proof.
  intros Hb.
  assert (Hi : unitIndex bytes = 0).
  { unfold unitIndex. apply Z.div_small. split; [apply Z.log2_nonneg|].
    apply Z.log2_lt_pow2; [lia|]. change (2 ^ 10) with 1024. lia. }
  unfold formatFileSize. destruct (Z.eqb_spec bytes 0) as [E | _]; [lia|].
  cbv zeta. rewrite Hi. unfold hundredths, showHundredths.
  change (1024 ^ 0) with 1. change (2 * 1) with 2.
  assert (Hh : (200 * bytes + 1) / 2 = bytes * 100).
  { symmetry. apply (Z.div_unique (200 * bytes + 1) 2 (bytes * 100) 1); lia. }
  rewrite Hh, Z.mod_mul, Z.div_mul by lia. reflexivity.
Qed.

(** 512 bytes. *)
Lemma formatFileSize_bytes_witness :
  formatFileSize 512 = (dec 512 ++ " Bytes")%string.
Proof. apply (formatFileSize_bytes 512). lia. Defined.


End ManagerSizes.

Section ManagerLanguages.
Import JS Path.

Lemma languageMap_values (key v : string) :
  ChatPanel.lookup key FileManager.languageMap = Some v -> v <> "" /\ v <> "text".
Proof.
  intros H. apply lookup_In in H. simpl in H.
  repeat (destruct H as [H | H]; [injection H as _ <-; split; discriminate|]).
  contradiction.
Qed.

(** X24.  [getLanguageFromFile] answers [text] exactly for the files
    whose lower-cased extension is not in its table, and never the empty
    string; and every extension the chat panel has a name for is in that
    table. *)
Theorem getLanguageFromFile_text (filePath : string) :
  (FileManager.getLanguageFromFile filePath = "text"
   <-> ChatPanel.lookup (toLowerCase (extname filePath)) FileManager.languageMap
       = None)
  /\ FileManager.getLanguageFromFile filePath <> ""
  /\ (ChatPanel.lookup (toLowerCase (extname filePath)) ChatPanel.langMap <> None ->
      FileManager.getLanguageFromFile filePath <> "text").
Proof.
  unfold FileManager.getLanguageFromFile.
  destruct (ChatPanel.lookup (toLowerCase (extname filePath)) FileManager.languageMap)
    as [v|] eqn:E.
  - destruct (languageMap_values _ _ E) as [Hne Htext].
    assert (Hv : ChatPanel.or_else (Some v) "text" = v).
    { destruct v; [now elim Hne | reflexivity]. }
    rewrite Hv. split; [split; [contradiction | discriminate]|].
    split; [exact Hne | intros _; exact Htext].
  - cbn [ChatPanel.or_else]. split; [tauto|]. split; [discriminate|].
    intros Hchat. exfalso.
    destruct (ChatPanel.lookup (toLowerCase (extname filePath)) ChatPanel.langMap)
      as [u|] eqn:Eu; [|now apply Hchat].
    apply lookup_In in Eu. simpl in Eu.
    repeat (destruct Eu as [Eu | Eu];
            [injection Eu as Ek _; rewrite <- Ek in E; discriminate E|]).
    contradiction.
Qed.
End ManagerLanguages.

(** * Properties of the AI service *)

Section Service.
Import JS AIService.

(** X25.  A service built from settings without an API key sends
    nothing: [generateResponse] and with it [generateCode], [explainCode],
    [reviewCode] and [refactorCode] fail with the request to configure the
    key, whatever the endpoint would answer. *)
Theorem service_without_key (cfgKey cfgUrl cfgModel : option string) (post : Axios) :
  cfgKey = None \/ cfgKey = Some "" ->
  let svc := constructor cfgKey cfgUrl cfgModel in
  (forall messages options,
      generateResponse svc post messages options = Throw missingKey)
  /\ (forall prompt files context,
         generateCode svc post prompt files context = Throw missingKey)
  /\ (forall code context, explainCode svc post code context = Throw missingKey)
  /\ (forall code language, reviewCode svc post code language = Throw missingKey)
  /\ (forall code requirements language,
         refactorCode svc post code requirements language = Throw missingKey).
Proof.
  intros Hkey svc.
  assert (H : forall messages options,
             generateResponse svc post messages options = Throw missingKey).
  { intros messages options. unfold generateResponse, svc, constructor.
    now destruct Hkey as [-> | ->]. }
  split; [exact H|]. repeat split; intros; apply H.
Qed.

(** No setting at all, and an endpoint that would answer. *)
Lemma service_without_key_witness :
  explainCode (constructor None None None)
              (fun _ => Response (Some ["an answer"])) "x = 1" None
  = Throw missingKey.
Proof.
  apply (service_without_key None None None (fun _ => Response (Some ["an answer"]))).
  now left.
Defined.

Lemma generateResponse_answer (svc : Service) (post : Axios)
      (messages : list ChatMessage) (options : Options) (answer : string) :
  generateResponse svc post messages options = Ok answer ->
  apiKey svc <> ""
  /\ exists others,
      post (requestOf svc messages options) = Response (Some (answer :: others)).
Proof.
  unfold generateResponse.
  destruct (ChatPanel.nonempty (apiKey svc)) eqn:Ek; [|discriminate].
  destruct (post (requestOf svc messages options)) as [[[|first others]|]|e];
    try discriminate.
  intros H. injection H as <-. split; [|now exists others].
  intros E. rewrite E in Ek. discriminate Ek.
Qed.

(** X26.  An answer of [generateResponse] is always the first choice of
    a reply to one request: to the service's address, with the key as
    bearer token, a timeout of 30 seconds, exactly the given messages, and
    2048 tokens, temperature 0.1 and no streaming unless the options say
    otherwise. *)
Theorem generateResponse_request (svc : Service) (post : Axios)
        (messages : list ChatMessage) (options : Options) (answer : string) :
  generateResponse svc post messages options = Ok answer ->
  exists request others,
    post request = Response (Some (answer :: others))
    /\ req_url request = apiUrl svc
    /\ req_model request = model svc
    /\ req_messages request = messages
    /\ req_Authorization request = "Bearer " ++ apiKey svc
    /\ apiKey svc <> ""
    /\ req_timeout request = 30000%Z
    /\ (maxTokens options = None -> req_max_tokens request = 2048%Z)
    /\ (temperature options = None -> req_temperature request = "0.1")
    /\ (stream options = None -> req_stream request = false).
Proof.
  intros H. apply generateResponse_answer in H as (Hk & others & Hp).
  exists (requestOf svc messages options), others.
  split; [exact Hp|]. repeat split; try assumption;
    intros E; cbn [requestOf req_max_tokens req_temperature req_stream];
    now rewrite E.
Qed.

(** A configured service and an endpoint that answers with two choices. *)
Lemma generateResponse_request_witness :
  generateResponse (constructor (Some "sk-1") None None)
                   (fun _ => Response (Some ["first"; "second"])) []
                   {| maxTokens := None; temperature := None; stream := None |}
  = Ok "first"
  /\ exists request others,
      (fun _ : Request => Response (Some ["first"; "second"])) request
      = Response (Some ("first" :: others))
      /\ req_url request = apiUrl (constructor (Some "sk-1") None None)
      /\ req_model request = model (constructor (Some "sk-1") None None)
      /\ req_messages request = []
      /\ req_Authorization request
         = "Bearer " ++ apiKey (constructor (Some "sk-1") None None)
      /\ apiKey (constructor (Some "sk-1") None None) <> ""
      /\ req_timeout request = 30000%Z
      /\ (@None Z = None -> req_max_tokens request = 2048%Z)
      /\ (@None string = None -> req_temperature request = "0.1")
      /\ (@None bool = None -> req_stream request = false).
Proof.
  split; [reflexivity|].
  apply (generateResponse_request (constructor (Some "sk-1") None None)
           (fun _ => Response (Some ["first"; "second"])) []
           {| maxTokens := None; temperature := None; stream := None |} "first").
  reflexivity.
Defined.

Lemma userContent_contents (userPrompt : string) (files : list Attached) :
  String.prefix userPrompt (userContent userPrompt files) = true
  /\ forall file, In file files ->
                  includes (userContent userPrompt files) (att_path file) = true
                  /\ includes (userContent userPrompt files) (att_content file) = true.
Proof.
  destruct files as [|f0 fs].
  - split; [apply prefix_refl | contradiction].
  - unfold userContent. split.
    + destruct (fold_append_prefix fileSection (f0 :: fs)
                  (userPrompt ++ nl ++ nl ++ "Referenced files:" ++ nl))
        as (rest & ->).
      rewrite append_assoc. apply prefix_append.
    + intros file Hin.
      destruct (fold_append_contains fileSection (f0 :: fs)
                  (userPrompt ++ nl ++ nl ++ "Referenced files:" ++ nl) file Hin)
        as (pre & post & ->).
      unfold fileSection. split.
      * apply (includes_intro (pre ++ nl ++ "### ") _
                 (nl ++ fence ++ nl ++ att_content file ++ nl ++ fence ++ nl ++ post)).
        rewrite !append_assoc. reflexivity.
      * apply (includes_intro
                 (pre ++ nl ++ "### " ++ att_path file ++ nl ++ fence ++ nl) _
                 (nl ++ fence ++ nl ++ post)).
        rewrite !append_assoc. reflexivity.
Qed.

(** X27.  [formatCodeGenerationPrompt] always yields two messages, the
    system message and then one user message.  The user message begins
    with the prompt, is the prompt alone when no file is attached, and
    contains the path and the content of every attached file; the system
    message begins with the fixed instructions, is nothing else when the
    workspace context is absent or empty, and contains the context
    otherwise. *)
Theorem formatCodeGenerationPrompt_shape
        (userPrompt : string) (files : list Attached) (context : option string) :
  exists system user,
    formatCodeGenerationPrompt userPrompt files context = [system; user]
    /\ role system = "system" /\ role user = "user"
    /\ String.prefix userPrompt (content user) = true
    /\ (files = [] -> content user = userPrompt)
    /\ (forall file, In file files ->
                     includes (content user) (att_path file) = true
                     /\ includes (content user) (att_content file) = true)
    /\ String.prefix baseSystemContent (content system) = true
    /\ (context = None \/ context = Some "" -> content system = baseSystemContent)
    /\ (forall ctx, context = Some ctx -> includes (content system) ctx = true).
Proof.
  exists (createSystemPrompt context),
    {| role := "user"; content := userContent userPrompt files |}.
  destruct (userContent_contents userPrompt files) as [Hpre Hin].
  split; [reflexivity|]. split; [reflexivity|]. split; [reflexivity|].
  split; [exact Hpre|]. split; [now intros ->|]. split; [exact Hin|].
  cbn [createSystemPrompt content]. split; [|split].
  - destruct context as [ctx|]; [|apply prefix_refl].
    destruct (ChatPanel.nonempty ctx); [apply prefix_append | apply prefix_refl].
  - intros [-> | ->]; reflexivity.
  - intros ctx ->. destruct ctx as [|c ctx].
    + change (ChatPanel.nonempty "") with false. cbn iota.
      apply (includes_intro "" "" baseSystemContent). reflexivity.
    + change (ChatPanel.nonempty (String c ctx)) with true. cbn iota.
      apply (includes_intro
               (baseSystemContent ++ nl ++ nl ++ "Current workspace context:" ++ nl)
               _ "").
      rewrite !append_assoc.
      assert (E : forall s, s ++ "" = s)
        by (induction s as [|x s IH]; simpl; [reflexivity | now rewrite IH]).
      now rewrite E.
Qed.

Lemma explain_contains (code : string) (context : option string) :
  exists user,
    explainMessages code context = [createSystemPrompt None; user]
    /\ role user = "user" /\ includes (content user) code = true.
Proof.
  eexists. split; [reflexivity|]. split; [reflexivity|]. cbn [content].
  eapply (includes_intro
            ("Please explain the following code in detail, including what it does, how it works, and any potential improvements:"
             ++ nl ++ nl ++ fence ++ nl)).
  rewrite !append_assoc. reflexivity.
Qed.

Lemma review_contains (code : string) (language : option string) :
  exists user,
    reviewMessages code language = [createSystemPrompt None; user]
    /\ role user = "user" /\ includes (content user) code = true.
Proof.
  eexists. split; [reflexivity|]. split; [reflexivity|]. cbn [content].
  eapply (includes_intro
            ("Please review the following " ++ ChatPanel.or_else language ""
             ++ " code and provide feedback on:" ++ nl ++
             "1. Code quality and best practices" ++ nl ++
             "2. Potential bugs or issues" ++ nl ++
             "3. Performance optimizations" ++ nl ++
             "4. Security considerations" ++ nl ++
             "5. Suggestions for improvement" ++ nl ++ nl ++
             "Code to review:" ++ nl ++
             fence ++ ChatPanel.or_else language "" ++ nl)).
  rewrite !append_assoc. reflexivity.
Qed.

Lemma refactor_contains (code requirements : string) (language : option string) :
  exists user,
    refactorMessages code requirements language = [createSystemPrompt None; user]
    /\ role user = "user"
    /\ includes (content user) code = true
    /\ includes (content user) requirements = true.
Proof.
  eexists. split; [reflexivity|]. split; [reflexivity|]. cbn [content]. split.
  - eapply (includes_intro
              ("Please refactor the following " ++ ChatPanel.or_else language ""
               ++ " code based on these requirements: " ++ requirements ++ nl ++ nl ++
               "Original code:" ++ nl ++
               fence ++ ChatPanel.or_else language "" ++ nl)).
    rewrite !append_assoc. reflexivity.
  - eapply (includes_intro
              ("Please refactor the following " ++ ChatPanel.or_else language ""
               ++ " code based on these requirements: ")).
    rewrite !append_assoc. reflexivity.
Qed.

(** X28.  Whenever [explainCode], [reviewCode] or [refactorCode]
    answers, the answer is the first choice of a reply to a request of two
    messages: the system message without workspace context, and a user
    message that contains the code verbatim (and, for a refactoring, the
    requirements). *)
Theorem code_operations_send_the_code
        (svc : Service) (post : Axios) (code requirements : string)
        (context language : option string) (answer : string) :
  explainCode svc post code context = Ok answer
  \/ reviewCode svc post code language = Ok answer
  \/ refactorCode svc post code requirements language = Ok answer ->
  exists request others user,
    post request = Response (Some (answer :: others))
    /\ req_messages request = [createSystemPrompt None; user]
    /\ content (createSystemPrompt None) = baseSystemContent
    /\ role user = "user"
    /\ includes (content user) code = true.
Proof.
  intros [H | [H | H]].
  - apply generateResponse_answer in H as (_ & others & Hp).
    destruct (explain_contains code context) as (user & Em & Hr & Hc).
    exists (requestOf svc (explainMessages code context)
              {| maxTokens := Some 1500%Z; temperature := Some "0.2"; stream := None |}),
      others, user.
    split; [exact Hp|]. cbn [req_messages requestOf]. auto.
  - apply generateResponse_answer in H as (_ & others & Hp).
    destruct (review_contains code language) as (user & Em & Hr & Hc).
    exists (requestOf svc (reviewMessages code language)
              {| maxTokens := Some 2000%Z; temperature := Some "0.2"; stream := None |}),
      others, user.
    split; [exact Hp|]. cbn [req_messages requestOf]. auto.
  - apply generateResponse_answer in H as (_ & others & Hp).
    destruct (refactor_contains code requirements language)
      as (user & Em & Hr & Hc & _).
    exists (requestOf svc (refactorMessages code requirements language)
              {| maxTokens := Some 2048%Z; temperature := Some "0.1"; stream := None |}),
      others, user.
    split; [exact Hp|]. cbn [req_messages requestOf]. auto.
Qed.

(** A review by a configured service. *)
Lemma code_operations_witness :
  exists request others user,
    (fun _ : Request => Response (Some ["looks fine"])) request
    = Response (Some ("looks fine" :: others))
    /\ req_messages request = [createSystemPrompt None; user]
    /\ content (createSystemPrompt None) = baseSystemContent
    /\ role user = "user"
    /\ includes (content user) "x = 1" = true.
Proof.
  apply (code_operations_send_the_code
           (constructor (Some "sk-1") None None)
           (fun _ => Response (Some ["looks fine"]))
           "x = 1" "" None (Some "python") "looks fine").
  right. left. reflexivity.
Defined.
End Service.

(** * Typing and reading across folders *)

Section Typing.
Import JS Path ChatPanel.

Lemma split_at_last (l : list ascii) (c : ascii) :
  In c l ->
  exists pre post,
    l = (pre ++ c :: post)%list /\ ~ In c post
    /\ Z.to_nat (lastIndexOf (str l) c + 1) = length pre + 1.
Proof.
  intros Hin. unfold lastIndexOf. rewrite chars_str.
  set (np := fun x => negb (Ascii.eqb x c)).
  pose proof (takeWhile_dropWhile np (rev l)) as Hsplit.
  assert (Htake : forall x, In x (takeWhile np (rev l)) -> x <> c).
  { clear. induction (rev l) as [|y r IH]; simpl; [contradiction|].
    destruct (np y) eqn:E; [|contradiction].
    intros x [<- | Hx]; [|now apply IH].
    unfold np in E. apply negb_true_iff in E. now apply Ascii.eqb_neq in E. }
  destruct (dropWhile np (rev l)) as [|x d] eqn:Ed.
  - exfalso. apply dropWhile_nil in Ed. rewrite forallb_forall in Ed.
    apply in_rev in Hin. specialize (Ed c Hin). unfold np in Ed.
    now rewrite Ascii.eqb_refl in Ed.
  - assert (Hx : x = c).
    { apply dropWhile_head in Ed. unfold np in Ed. apply negb_false_iff in Ed.
      now apply Ascii.eqb_eq in Ed. }
    subst x. exists (rev d), (rev (takeWhile np (rev l))). split; [|split].
    + transitivity (rev (takeWhile np (rev l) ++ c :: d)).
      * rewrite Hsplit. symmetry. apply rev_involutive.
      * rewrite rev_app_distr. cbn [rev]. now rewrite <- app_assoc.
    + intros H. apply in_rev in H. now apply (Htake c H).
    + rewrite length_rev. cbn [length]. lia.
Qed.

(** X29.  Typing asks for suggestions exactly when an [@] stands before
    the cursor: then one [getWorkspaceFiles] request is posted, and its
    query is what stands between the last such [@] and the cursor, without
    any [@]; otherwise nothing is posted and the suggestions are hidden.
    The attached files are untouched and the input becomes the value. *)
Theorem typing_requests_suggestions
        (st : ChatState) (value : string) (cursorPosition : nat) :
  let before := firstn cursorPosition (chars value) in
  attachedFiles (snd (handleInputChange st value cursorPosition)) = attachedFiles st
  /\ input (snd (handleInputChange st value cursorPosition)) = value
  /\ (~ In "@"%char before ->
      fst (handleInputChange st value cursorPosition) = None
      /\ showSuggestions (snd (handleInputChange st value cursorPosition)) = false)
  /\ (In "@"%char before ->
      exists pre query,
        fst (handleInputChange st value cursorPosition)
        = Some (getWorkspaceFilesRequest (str query))
        /\ before = (pre ++ "@"%char :: query)%list
        /\ ~ In "@"%char query).
Proof.
  intros before. unfold handleInputChange, substringTo. fold before.
  split; [|split; [|split]].
  - now destruct (lastIndexOf (str before) "@"%char =? -1)%Z.
  - now destruct (lastIndexOf (str before) "@"%char =? -1)%Z.
  - intros Hno.
    assert (E : lastIndexOf (str before) "@"%char = (-1)%Z).
    { unfold lastIndexOf. rewrite chars_str.
      assert (Hd : dropWhile (fun x => negb (Ascii.eqb x "@"%char)) (rev before) = []).
      { apply dropWhile_nil, forallb_forall. intros x Hx. apply in_rev in Hx.
        apply negb_true_iff, Ascii.eqb_neq. intros ->. now apply Hno. }
      now rewrite Hd. }
    rewrite E. now split.
  - intros Hat. destruct (split_at_last before "@"%char Hat) as (pre & post & Hb & Hn & Hl).
    assert (E : (lastIndexOf (str before) "@"%char =? -1)%Z = false).
    { apply Z.eqb_neq. lia. }
    rewrite E. cbn [fst]. exists pre, post. split; [|split; assumption].
    unfold substringFrom. rewrite chars_str, Hl.
    do 2 f_equal. rewrite Hb at 1.
    replace (length pre + 1) with (length (pre ++ ["@"%char]) + 0)
      by (rewrite length_app; simpl; lia).
    change (pre ++ "@"%char :: post)%list with (pre ++ ["@"%char] ++ post)%list.
    rewrite app_assoc, skipn_app, skipn_all2 by lia.
    replace (length (pre ++ ["@"%char]) + 0 - length (pre ++ ["@"%char])) with 0 by lia.
    reflexivity.
Qed.



End Typing.
